(** * ChangeGAN: the training / evaluation coordination core of [main.py]

    A shallow embedding of [change-gan/change-gan/main.py]: the
    [EvaluationRunHook] class (checkpoint tracking, evaluation scheduling
    under two locks, the evaluation loop), the session set-up of [run], the
    role resolution of [dispatch] and the command-line table, followed by
    the properties of the specification that concern them.

    Calls into TensorFlow, [json] and [argparse] are external: what they
    return (or raise) is supplied to the model as an argument, and the
    model records which calls were made. *)

From stdpp Require Import gmap strings list.

Set Warnings "-register-all".
Open Scope Z_scope.

(** ** Python values and exceptions *)

Inductive py_version := Py2 | Py3.

Inductive exn :=
| TypeError
| AttributeError
| ValueError
| UnboundLocalError
| RuntimeError
| CancelledError            (* tf.errors.CancelledError *)
| OutOfRangeError           (* tf.errors.OutOfRangeError *)
| SystemExit (code : Z)
| ExternalError (name : string).

(** What an external call does: return a value or raise. *)
Inductive outcome (A : Type) :=
| Returns (a : A)
| Raises (e : exn).
Arguments Returns {A} a.
Arguments Raises {A} e.

(** The values a command-line attribute can hold: [None], an [int] or the
    raw [str] of the argument. *)
Inductive pyval :=
| PyNone
| PyInt (n : Z)
| PyStr (s : string).

(** [n > v] for an [int] [n].  Python 3 refuses to order an [int] against a
    [str] or [None]; Python 2 orders [None] below every object and every
    number below every string. *)
Definition py_int_gt (pv : py_version) (n : Z) (v : pyval) : outcome bool :=
  match v with
  | PyInt m => Returns (m <? n)
  | PyStr _ => match pv with Py2 => Returns false | Py3 => Raises TypeError end
  | PyNone => match pv with Py2 => Returns true | Py3 => Raises TypeError end
  end.

(** ** The state of an [EvaluationRunHook] *)

Definition ckpt := string.       (* a checkpoint path prefix *)
Definition summary := string.    (* a serialized Summary protocol buffer *)

(** [tf.summary.FileWriter]: records added and records flushed to disk,
    each a summary with its [global_step]. *)
Record FileWriter := {
  fw_pending : list (summary * Z);
  fw_flushed : list (summary * Z) }.

Definition add_summary (s : summary) (global_step : Z) (f : FileWriter) : FileWriter :=
  {| fw_pending := fw_pending f ++ [(s, global_step)]; fw_flushed := fw_flushed f |}.

Definition flush (f : FileWriter) : FileWriter :=
  {| fw_pending := []; fw_flushed := fw_flushed f ++ fw_pending f |}.

Inductive lock_id := CheckpointLock | EvalLock.

(** The fields [__init__] sets; a lock is [true] while it is held. *)
Record Hook := {
  _eval_steps : option Z;
  _checkpoint_dir : string;
  _eval_every : pyval;
  _latest_checkpoint : option ckpt;
  _checkpoints_since_eval : Z;
  _eval_lock : bool;
  _checkpoint_lock : bool;
  _file_writer : FileWriter }.

Definition EvaluationRunHook (checkpoint_dir : string) (eval_frequency : pyval)
    (eval_steps : option Z) : Hook :=
  {| _eval_steps := eval_steps;
     _checkpoint_dir := checkpoint_dir;
     _eval_every := eval_frequency;
     _latest_checkpoint := None;
     _checkpoints_since_eval := 0;
     _eval_lock := false;
     _checkpoint_lock := false;
     _file_writer := {| fw_pending := []; fw_flushed := [] |} |}.

Definition set_latest_checkpoint (c : option ckpt) (h : Hook) : Hook :=
  {| _eval_steps := _eval_steps h; _checkpoint_dir := _checkpoint_dir h;
     _eval_every := _eval_every h; _latest_checkpoint := c;
     _checkpoints_since_eval := _checkpoints_since_eval h;
     _eval_lock := _eval_lock h; _checkpoint_lock := _checkpoint_lock h;
     _file_writer := _file_writer h |}.

Definition set_checkpoints_since_eval (n : Z) (h : Hook) : Hook :=
  {| _eval_steps := _eval_steps h; _checkpoint_dir := _checkpoint_dir h;
     _eval_every := _eval_every h; _latest_checkpoint := _latest_checkpoint h;
     _checkpoints_since_eval := n;
     _eval_lock := _eval_lock h; _checkpoint_lock := _checkpoint_lock h;
     _file_writer := _file_writer h |}.

Definition set_file_writer (f : FileWriter) (h : Hook) : Hook :=
  {| _eval_steps := _eval_steps h; _checkpoint_dir := _checkpoint_dir h;
     _eval_every := _eval_every h; _latest_checkpoint := _latest_checkpoint h;
     _checkpoints_since_eval := _checkpoints_since_eval h;
     _eval_lock := _eval_lock h; _checkpoint_lock := _checkpoint_lock h;
     _file_writer := f |}.

Definition lock_held (l : lock_id) (h : Hook) : bool :=
  match l with
  | CheckpointLock => _checkpoint_lock h
  | EvalLock => _eval_lock h
  end.

Definition set_lock (l : lock_id) (b : bool) (h : Hook) : Hook :=
  {| _eval_steps := _eval_steps h; _checkpoint_dir := _checkpoint_dir h;
     _eval_every := _eval_every h; _latest_checkpoint := _latest_checkpoint h;
     _checkpoints_since_eval := _checkpoints_since_eval h;
     _eval_lock := match l with EvalLock => b | _ => _eval_lock h end;
     _checkpoint_lock := match l with CheckpointLock => b | _ => _checkpoint_lock h end;
     _file_writer := _file_writer h |}.

(** ** Worlds, traces and the monad of a callback

    Next to the hook a world keeps a trace: the lock operations and the
    calls of [_run_eval], in the order they happened. *)

Inductive event :=
| Ev_acquire (l : lock_id) (blocking got : bool)
| Ev_release (l : lock_id)
| Ev_run_eval (restored : option ckpt).

Record world := { hook : Hook; trace : list event }.

Definition log (e : event) (w : world) : world :=
  {| hook := hook w; trace := trace w ++ [e] |}.

Definition on_hook (f : Hook → Hook) (w : world) : world :=
  {| hook := f (hook w); trace := trace w |}.

(** A callback returns, raises, or does not come back ([Timeout]: the fuel
    of a loop ran out, or a blocking acquire found the lock held with
    nobody to release it). *)
Inductive res (A : Type) :=
| Ret (a : A) (w : world)
| Exc (e : exn) (w : world)
| Timeout.
Arguments Ret {A} a w.
Arguments Exc {A} e w.
Arguments Timeout {A}.

Definition M (A : Type) : Type := world → res A.

Definition ret {A} (a : A) : M A := fun w => Ret a w.
Definition raise {A} (e : exn) : M A := fun w => Exc e w.
Definition bind {A B} (m : M A) (k : A → M B) : M B := fun w =>
  match m w with
  | Ret a w1 => k a w1
  | Exc e w1 => Exc e w1
  | Timeout => Timeout
  end.

Declare Scope py_scope.
Delimit Scope py_scope with py.
Notation "x <- m ;; k" := (bind m (fun x => k))
  (at level 100, m at next level, right associativity) : py_scope.
Notation "m ;;; k" := (bind m (fun _ => k))
  (at level 100, right associativity) : py_scope.

Definition get_hook : M Hook := fun w => Ret (hook w) w.
Definition modify (f : Hook → Hook) : M unit := fun w => Ret tt (on_hook f w).
Definition emit (e : event) : M unit := fun w => Ret tt (log e w).
Definition call {A} (o : outcome A) : M A :=
  match o with
  | Returns a => ret a
  | Raises e => raise e
  end.

(** [try: body finally: fin]: [fin] runs on both exits of [body]; an
    exception of [body] is raised again after it unless [fin] raises. *)
Definition try_finally {A} (body : M A) (fin : M unit) : M A := fun w =>
  match body w with
  | Ret a w1 =>
      match fin w1 with
      | Ret _ w2 => Ret a w2
      | Exc e w2 => Exc e w2
      | Timeout => Timeout
      end
  | Exc e w1 =>
      match fin w1 with
      | Ret _ w2 => Exc e w2
      | Exc e' w2 => Exc e' w2
      | Timeout => Timeout
      end
  | Timeout => Timeout
  end.

(** [threading.Lock.acquire(blocking)]: a free lock is taken; a held lock
    makes the non-blocking call return [False] and the blocking call wait. *)
Definition acquire (l : lock_id) (blocking : bool) : M bool := fun w =>
  if lock_held l (hook w) then
    if blocking then Timeout
    else Ret false (log (Ev_acquire l false false) w)
  else Ret true (log (Ev_acquire l blocking true) (on_hook (set_lock l true) w)).

(** [threading.Lock.release()]: releasing a lock that is not held is an
    error. *)
Definition release (l : lock_id) : M unit := fun w =>
  if lock_held l (hook w)
  then Ret tt (log (Ev_release l) (on_hook (set_lock l false) w))
  else Exc RuntimeError w.

(** ** [EvaluationRunHook._update_latest_checkpoint]

    [latest_checkpoint] is what [tf.train.latest_checkpoint] answers for
    the checkpoint directory at this call. *)
Definition _update_latest_checkpoint (latest_checkpoint : outcome (option ckpt)) : M unit :=
  (got <- acquire CheckpointLock false ;;
   if got : bool then
     try_finally
       (latest <- call latest_checkpoint ;;
        h <- get_hook ;;
        if negb (bool_decide (latest = _latest_checkpoint h)) then
          modify (fun h => set_checkpoints_since_eval (_checkpoints_since_eval h + 1) h) ;;;
          modify (set_latest_checkpoint latest)
        else ret tt)
       (release CheckpointLock)
   else ret tt)%py.

(** ** [EvaluationRunHook._run_eval]

    One evaluation pass talks to a fresh session.  [restore c] stands for
    opening it on the evaluation graph, restoring checkpoint [c], running
    the initializers, starting the queue runners and reading the global
    step: it answers the restored step or raises.  [should_stop i] is what
    [coord.should_stop()] answers at the check before iteration [i], and
    [session_run i] what [session.run(self._summary_op)] does in it. *)
Record eval_session := {
  restore : option ckpt → outcome Z;
  should_stop : nat → bool;
  session_run : nat → outcome summary }.

(** [clean_stop_exception_types] of the coordinator. *)
Definition clean_stop (e : exn) : bool :=
  match e with
  | CancelledError | OutOfRangeError => true
  | _ => false
  end.

(** How the [with coord.stop_on_exception()] block was left: the iterations
    completed, the local [summaries] (unbound while [None]), the steps for
    which a progress line was logged, and the exception the coordinator
    keeps for a later [join] (none for a clean stop). *)
Record loop_exit := {
  iterations : nat;
  summaries : option summary;
  progress : list nat;
  coord_exc : option exn }.

(** [self._eval_steps is None or eval_step < self._eval_steps] *)
Definition within_budget (eval_steps : option Z) (eval_step : nat) : bool :=
  match eval_steps with
  | None => true
  | Some n => Z.of_nat eval_step <? n
  end.

(** The [while] loop inside [coord.stop_on_exception()]: the context
    manager hands every exception of the body to [coord.request_stop] and
    leaves the block normally.  [None] when the fuel runs out. *)
Fixpoint eval_loop (fuel : nat) (eval_steps : option Z) (es : eval_session)
    (eval_step : nat) (summ : option summary) (logged : list nat) : option loop_exit :=
  match fuel with
  | O => None
  | S fuel' =>
      if negb (should_stop es eval_step) && within_budget eval_steps eval_step then
        match session_run es eval_step with
        | Returns s =>
            let logged' :=
              if (Z.of_nat eval_step mod 100 =? 0) then logged ++ [eval_step] else logged in
            eval_loop fuel' eval_steps es (S eval_step) (Some s) logged'
        | Raises e =>
            Some {| iterations := eval_step; summaries := summ; progress := logged;
                    coord_exc := if clean_stop e then None else Some e |}
        end
      else
        Some {| iterations := eval_step; summaries := summ; progress := logged;
                coord_exc := None |}
  end.

Definition terminating {A} (o : option A) : M A := fun w =>
  match o with
  | Some a => Ret a w
  | None => Timeout
  end.

Definition _run_eval (fuel : nat) (es : eval_session) : M unit :=
  (h <- get_hook ;;
   emit (Ev_run_eval (_latest_checkpoint h)) ;;;
   train_step <- call (restore es (_latest_checkpoint h)) ;;
   ex <- terminating (eval_loop fuel (_eval_steps h) es 0 None []) ;;
   (* Write the summaries *)
   match summaries ex with
   | None => raise UnboundLocalError
   | Some s =>
       modify (fun h => set_file_writer (add_summary s train_step (_file_writer h)) h) ;;;
       modify (fun h => set_file_writer (flush (_file_writer h)) h)
   end)%py.

(** ** [EvaluationRunHook.after_run] and [EvaluationRunHook.end] *)

Definition after_run (pv : py_version) (latest_checkpoint : outcome (option ckpt))
    (fuel : nat) (es : eval_session) : M unit :=
  (_update_latest_checkpoint latest_checkpoint ;;;
   got <- acquire EvalLock false ;;
   if got : bool then
     try_finally
       (h <- get_hook ;;
        due <- call (py_int_gt pv (_checkpoints_since_eval h) (_eval_every h)) ;;
        if due : bool then
          modify (set_checkpoints_since_eval 0) ;;;
          _run_eval fuel es
        else ret tt)
       (release EvalLock)
   else ret tt)%py.

(** [with self._eval_lock:] is a blocking acquire, the body, and the
    release on both exits. *)
Definition end_ (latest_checkpoint : outcome (option ckpt))
    (fuel : nat) (es : eval_session) : M unit :=
  (_update_latest_checkpoint latest_checkpoint ;;;
   acquire EvalLock true ;;;
   try_finally (_run_eval fuel es) (release EvalLock))%py.

(** Sample inputs. *)
Definition unbounded_session (step : Z) : eval_session :=
  {| restore := fun _ => Returns step;
     should_stop := fun _ => false;
     session_run := fun _ => Returns "summary"%string |}.

Definition exhausted_after (k : nat) (step : Z) : eval_session :=
  {| restore := fun _ => Returns step;
     should_stop := fun _ => false;
     session_run := fun i => if (i <? k)%nat then Returns "summary"%string
                             else Raises OutOfRangeError |}.

Definition hook0 : Hook := EvaluationRunHook "job" (PyInt 1) (Some 3).
Definition world0 : world := {| hook := hook0; trace := [] |}.

(** ** Overlapping callbacks

    The session may start a callback before an earlier one has come back.
    Each callback in flight is a thread with a program point; a step of a
    thread is one lock operation, one access to a field of the hook, or one
    external call.  The lock operations and [_run_eval] are the ones defined
    above. *)

Inductive callback := AfterRun | End.

Inductive pc :=
| At_update                              (* self._checkpoint_lock.acquire(False) *)
| Upd_observe                            (* latest = tf.train.latest_checkpoint(...) *)
| Upd_compare (latest : option ckpt)     (* if not latest == self._latest_checkpoint *)
| Upd_load (latest : option ckpt)        (* read self._checkpoints_since_eval *)
| Upd_store (latest : option ckpt) (n : Z) (* self._checkpoints_since_eval = n + 1 *)
| Upd_set_latest (latest : option ckpt)  (* self._latest_checkpoint = latest *)
| Upd_release (pending : option exn)     (* finally: self._checkpoint_lock.release() *)
| At_eval_acquire                        (* acquire(False) in after_run, acquire() in end *)
| Eval_compare                           (* if self._checkpoints_since_eval > self._eval_every *)
| Eval_reset                             (* self._checkpoints_since_eval = 0 *)
| Eval_run                               (* self._run_eval() *)
| Eval_release (pending : option exn)    (* finally: self._eval_lock.release() *)
| Finished (r : outcome unit).

(** What the environment answers to the external calls of one step. *)
Record oracle := {
  o_latest : outcome (option ckpt);
  o_fuel : nat;
  o_session : eval_session }.

Definition finish (pending : option exn) : outcome unit :=
  match pending with
  | None => Returns tt
  | Some e => Raises e
  end.

(** One step of a thread; [None] when it cannot move: it has finished, or it
    waits in a blocking acquire.  An evaluation whose loop has not ended
    within the fuel of this step is still running. *)
Definition thread_step (pv : py_version) (o : oracle) (cb : callback) (p : pc)
    (w : world) : option (pc * world) :=
  match p with
  | At_update =>
      match acquire CheckpointLock false w with
      | Ret true w' => Some (Upd_observe, w')
      | Ret false w' => Some (At_eval_acquire, w')
      | _ => None
      end
  | Upd_observe =>
      match o_latest o with
      | Returns latest => Some (Upd_compare latest, w)
      | Raises e => Some (Upd_release (Some e), w)
      end
  | Upd_compare latest =>
      if negb (bool_decide (latest = _latest_checkpoint (hook w)))
      then Some (Upd_load latest, w)
      else Some (Upd_release None, w)
  | Upd_load latest => Some (Upd_store latest (_checkpoints_since_eval (hook w)), w)
  | Upd_store latest n =>
      Some (Upd_set_latest latest, on_hook (set_checkpoints_since_eval (n + 1)) w)
  | Upd_set_latest latest =>
      Some (Upd_release None, on_hook (set_latest_checkpoint latest) w)
  | Upd_release pending =>
      match release CheckpointLock w with
      | Ret _ w' =>
          Some (match pending with
                | None => At_eval_acquire
                | Some e => Finished (Raises e)
                end, w')
      | Exc e w' => Some (Finished (Raises e), w')
      | Timeout => None
      end
  | At_eval_acquire =>
      match cb with
      | AfterRun =>
          match acquire EvalLock false w with
          | Ret true w' => Some (Eval_compare, w')
          | Ret false w' => Some (Finished (Returns tt), w')
          | _ => None
          end
      | End =>
          match acquire EvalLock true w with
          | Ret _ w' => Some (Eval_run, w')
          | _ => None
          end
      end
  | Eval_compare =>
      match py_int_gt pv (_checkpoints_since_eval (hook w)) (_eval_every (hook w)) with
      | Returns true => Some (Eval_reset, w)
      | Returns false => Some (Eval_release None, w)
      | Raises e => Some (Eval_release (Some e), w)
      end
  | Eval_reset => Some (Eval_run, on_hook (set_checkpoints_since_eval 0) w)
  | Eval_run =>
      match _run_eval (o_fuel o) (o_session o) w with
      | Ret _ w' => Some (Eval_release None, w')
      | Exc e w' => Some (Eval_release (Some e), w')
      | Timeout => Some (Eval_run, w)
      end
  | Eval_release pending =>
      match release EvalLock w with
      | Ret _ w' => Some (Finished (finish pending), w')
      | Exc e w' => Some (Finished (Raises e), w')
      | Timeout => None
      end
  | Finished _ => None
  end.

(** A thread alone: step until it cannot move, at most [n] times. *)
Fixpoint solo (pv : py_version) (o : oracle) (cb : callback) (n : nat)
    (p : pc) (w : world) : pc * world :=
  match n with
  | O => (p, w)
  | S n' =>
      match thread_step pv o cb p w with
      | Some (p', w') => solo pv o cb n' p' w'
      | None => (p, w)
      end
  end.

Record thread := { cb_of : callback; at_pc : pc }.

Record pool := { threads : list thread; shared : world }.

(** The scheduler picks thread [i]; a thread that cannot move, or an index
    out of range, leaves the pool as it is. *)
Definition sched_step (pv : py_version) (p : pool) (pick : nat * oracle) : pool :=
  match threads p !! pick.1 with
  | None => p
  | Some t =>
      match thread_step pv pick.2 (cb_of t) (at_pc t) (shared p) with
      | None => p
      | Some (p', w') =>
          {| threads := <[pick.1 := {| cb_of := cb_of t; at_pc := p' |}]> (threads p);
             shared := w' |}
      end
  end.

Definition run_schedule (pv : py_version) (s : list (nat * oracle)) (p : pool) : pool :=
  fold_left (sched_step pv) s p.

Definition spawn (cbs : list callback) (h : Hook) : pool :=
  {| threads := map (fun c => {| cb_of := c; at_pc := At_update |}) cbs;
     shared := {| hook := h; trace := [] |} |}.

(** The program points between taking the evaluation guard and giving it
    back, and the one inside the evaluation pass. *)
Definition holds_guard (t : thread) : bool :=
  match at_pc t with
  | Eval_compare | Eval_reset | Eval_run | Eval_release _ => true
  | _ => false
  end.

Definition evaluating (t : thread) : bool :=
  match at_pc t with
  | Eval_run => true
  | _ => false
  end.

Fixpoint count {A} (f : A → bool) (l : list A) : nat :=
  match l with
  | [] => 0
  | x :: rest => ((if f x then 1 else 0) + count f rest)%nat
  end.

Definition is_run_eval (e : event) : bool :=
  match e with
  | Ev_run_eval _ => true
  | _ => false
  end.

(** The number of calls of [_run_eval] in a trace. *)
Definition run_eval_calls (tr : list event) : nat := count is_run_eval tr.

(** ** [run]: the training session and its hooks

    The arguments [dispatch] forwards to [run].  The dataset, domain and
    learning-rate arguments only reach the dataset and model builders and
    are left out. *)
Record run_args := {
  train_steps : option Z;
  eval_steps : option Z;
  job_dir : string;
  eval_frequency : pyval;
  train_batch_size : Z;
  eval_batch_size : Z }.

(** The arguments of [tf.train.MonitoredTrainingSession]. *)
Record training_session := {
  master : string;
  is_chief : bool;
  checkpoint_dir : string;
  hooks : list Hook;
  save_checkpoint_secs : Z;
  save_summaries_steps : Z }.

Definition run (target : string) (is_chief : bool) (a : run_args) : training_session :=
  let hooks :=
    if is_chief
    then [EvaluationRunHook (job_dir a) (eval_frequency a) (eval_steps a)]
    else [] in
  {| master := target;
     is_chief := is_chief;
     checkpoint_dir := job_dir a;
     hooks := hooks;
     save_checkpoint_secs := 300;
     save_summaries_steps := 50 |}.

(** ** [dispatch]: from [TF_CONFIG] to a role *)

(** What [json.loads] produces. *)
Inductive json : Type :=
| JNull
| JBool (b : bool)
| JInt (n : Z)
| JFloat (literal : string)
| JStr (s : string)
| JList (l : list json)
| JDict (m : gmap string json).

(** [d.get(key, default)]; only a [dict] has the method. *)
Definition py_get (d : json) (key : string) (default : json) : outcome json :=
  match d with
  | JDict m =>
      Returns (match m !! key with
               | Some v => v
               | None => default
               end)
  | _ => Raises AttributeError
  end.

(** [v is None] *)
Definition is_None (v : json) : bool :=
  match v with
  | JNull => true
  | _ => false
  end.

(** [v == s] for a string literal [s] *)
Definition eq_str (v : json) (s : string) : bool :=
  match v with
  | JStr s' => bool_decide (s' = s)
  | _ => false
  end.

(** [tf_config_json.get('task', {}).get(key)] *)
Definition task_field (tf_config_json : json) (key : string) : outcome json :=
  match py_get tf_config_json "task" (JDict ∅) with
  | Returns task => py_get task key JNull
  | Raises e => Raises e
  end.

(** The library calls of [dispatch]: [json.loads], [tf.train.ClusterSpec]
    and [tf.train.Server], which answers the server's [target]. *)
Record externals := {
  json_loads : string → outcome json;
  ClusterSpec : json → outcome unit;
  Server : json → json → json → outcome string }.

Inductive tf_call :=
| Call_ClusterSpec (cluster : json)
| Call_Server (cluster job_name task_index : json)
| Call_join.

(** How [dispatch] ends: in [run], blocked in [server.join()], by falling
    off its last [elif], or by an exception. *)
Inductive dispatched :=
| Ran (s : training_session)
| Serving
| Returned_None
| Failed (e : exn).

Record dispatch_result := { calls : list tf_call; final : dispatched }.

Definition dispatch (x : externals) (tf_config : option string) (args : run_args)
    : dispatch_result :=
  let local := {| calls := []; final := Ran (run EmptyString true args) |} in
  let failed e := {| calls := []; final := Failed e |} in
  match tf_config with
  | None => local
  | Some text =>
      (* If TF_CONFIG is not available run local *)
      if bool_decide (text = EmptyString) then local else
      match json_loads x text with
      | Raises e => failed e
      | Returns tf_config_json =>
      match py_get tf_config_json "cluster" JNull with
      | Raises e => failed e
      | Returns cluster =>
      match task_field tf_config_json "type" with
      | Raises e => failed e
      | Returns job_name =>
      match task_field tf_config_json "index" with
      | Raises e => failed e
      | Returns task_index =>
          (* If cluster information is empty run local *)
          if is_None job_name || is_None task_index then local else
          match ClusterSpec x cluster with
          | Raises e => {| calls := [Call_ClusterSpec cluster]; final := Failed e |}
          | Returns _ =>
          let started :=
            [Call_ClusterSpec cluster; Call_Server cluster job_name task_index] in
          match Server x cluster job_name task_index with
          | Raises e => {| calls := started; final := Failed e |}
          | Returns target =>
              if eq_str job_name "ps" then
                {| calls := started ++ [Call_join]; final := Serving |}
              else if eq_str job_name "master" || eq_str job_name "worker" then
                {| calls := started;
                   final := Ran (run target (eq_str job_name "master") args) |}
              else
                {| calls := started; final := Returned_None |}
          end
          end
      end
      end
      end
      end
  end.

(** Whether a server was started, and whether [dispatch] stopped with an
    exception before starting one. *)
Definition is_Server_call (c : tf_call) : bool :=
  match c with
  | Call_Server _ _ _ => true
  | _ => false
  end.

Definition server_started (r : dispatch_result) : bool := existsb is_Server_call (calls r).

Definition failed_before_server (r : dispatch_result) : bool :=
  match final r with
  | Failed _ => negb (server_started r)
  | _ => false
  end.

(** ** The command line

    The integer-valued flags of the parser and [--eval-frequency], as
    [add_argument] declares them. *)
Inductive arg_type := type_int | type_str.

Record argument := {
  flag : string;
  type_ : option arg_type;
  default_ : pyval }.

Definition arg_train_steps : argument :=
  {| flag := "--train-steps"; type_ := Some type_int; default_ := PyNone |}.
Definition arg_eval_steps : argument :=
  {| flag := "--eval-steps"; type_ := Some type_int; default_ := PyNone |}.
Definition arg_eval_frequency : argument :=
  {| flag := "--eval-frequency"; type_ := None; default_ := PyInt 1 |}.
Definition arg_train_batch_size : argument :=
  {| flag := "--train-batch-size"; type_ := Some type_int; default_ := PyInt 40 |}.
Definition arg_eval_batch_size : argument :=
  {| flag := "--eval-batch-size"; type_ := Some type_int; default_ := PyInt 40 |}.

Section Argparse.
(** The builtin [int] applied to a [str]. *)
Variable py_int : string → outcome Z.

(** A [TypeError] or [ValueError] of the conversion is caught by
    [argparse], which prints the usage and exits with status 2; any other
    exception goes through. *)
Definition conversion_error (e : exn) : exn :=
  match e with
  | TypeError | ValueError => SystemExit 2
  | _ => e
  end.

(** [argparse] converts an argument string with the [type] of its
    action, and leaves it as it is when the action has none. *)
Definition get_value (ty : option arg_type) (arg_string : string) : outcome pyval :=
  match ty with
  | None => Returns (PyStr arg_string)
  | Some type_str => Returns (PyStr arg_string)
  | Some type_int =>
      match py_int arg_string with
      | Returns n => Returns (PyInt n)
      | Raises e => Raises (conversion_error e)
      end
  end.

(** The attribute of the namespace for a flag given once or not at all. *)
Definition parse_flag (a : argument) (supplied : option string) : outcome pyval :=
  match supplied with
  | Some arg_string => get_value (type_ a) arg_string
  | None => Returns (default_ a)
  end.
End Argparse.

(** ** Auxiliary definitions, tactics and sample inputs *)

(** The fields of a hook outside [CheckpointState] and its guard. *)
Definition same_outside_checkpoint_state (h h' : Hook) : Prop :=
  _eval_steps h' = _eval_steps h ∧ _checkpoint_dir h' = _checkpoint_dir h ∧
  _eval_every h' = _eval_every h ∧ _eval_lock h' = _eval_lock h ∧
  _file_writer h' = _file_writer h.

(** A run of completed calls of [_update_latest_checkpoint], one per
    observation. *)
Fixpoint observe_all (obs : list (option ckpt)) : M unit :=
  match obs with
  | [] => ret tt
  | o :: rest => bind (_update_latest_checkpoint (Returns o)) (fun _ => observe_all rest)
  end.

(** How often the latest checkpoint differs from the one seen before. *)
Fixpoint changes (last : option ckpt) (obs : list (option ckpt)) : Z :=
  match obs with
  | [] => 0
  | o :: rest => (if bool_decide (o = last) then 0 else 1) + changes o rest
  end.

(** Unfolding the monad of a callback. *)
Ltac run_py :=
  unfold _update_latest_checkpoint, after_run, end_, _run_eval, try_finally, bind,
    acquire, release, call, ret, raise, get_hook, modify, emit, terminating,
    log, on_hook; simpl.

(** Iteration [i] runs to its end: no stop is requested at its check and
    the session yields a summary. *)
Definition yields (es : eval_session) (i : nat) : bool :=
  negb (should_stop es i) &&
  match session_run es i with
  | Returns _ => true
  | Raises _ => false
  end.

(** The input pipeline signals exhaustion or cancellation at iteration [i]:
    a stop has been requested, or the session raises one of the clean-stop
    exceptions. *)
Definition signals (es : eval_session) (i : nat) : bool :=
  should_stop es i ||
  match session_run es i with
  | Returns _ => false
  | Raises e => clean_stop e
  end.

(** The loop does not go past the check or the body of iteration [i]. *)
Definition stops_here (eval_steps : option Z) (es : eval_session) (i : nat) : bool :=
  negb (yields es i && within_budget eval_steps i).

(** What the coordinator keeps when the loop is left at iteration [i]. *)
Definition exit_exc (eval_steps : option Z) (es : eval_session) (i : nat) : option exn :=
  if negb (should_stop es i) && within_budget eval_steps i then
    match session_run es i with
    | Raises e => if clean_stop e then None else Some e
    | Returns _ => None
    end
  else None.

(** A new hook with [eval_steps = 0]. *)
Definition world_eval_steps_0 : world :=
  {| hook := EvaluationRunHook "job" (PyInt 1) (Some 0); trace := [] |}.

(** The fields of a hook outside its file writer. *)
Definition same_outside_file_writer (h h' : Hook) : Prop :=
  _eval_steps h' = _eval_steps h ∧ _checkpoint_dir h' = _checkpoint_dir h ∧
  _eval_every h' = _eval_every h ∧ _latest_checkpoint h' = _latest_checkpoint h ∧
  _checkpoints_since_eval h' = _checkpoints_since_eval h ∧
  _eval_lock h' = _eval_lock h ∧ _checkpoint_lock h' = _checkpoint_lock h.

(** [self._checkpoints_since_eval > self._eval_every] holds. *)
Definition due (pv : py_version) (h : Hook) : bool :=
  match py_int_gt pv (_checkpoints_since_eval h) (_eval_every h) with
  | Returns b => b
  | Raises _ => false
  end.

(** The same, keeping [_run_eval] and the update folded. *)
Ltac run_cb :=
  unfold after_run, end_, try_finally, bind, acquire, release, call, ret, raise,
    get_hook, modify, log, on_hook; simpl.

(** Case analysis on the evaluation pass in the goal, with what the frame
    lemma [frame] says about it. *)
Ltac frame_run_eval frame :=
  match goal with
  | |- context [_run_eval ?fu ?se ?W] =>
      let F := fresh "F" in
      pose proof (frame fu se W) as F; simpl in F;
      destruct (_run_eval fu se W) as [[] ? | ? ? |]
  end.

(** A hook with [eval_frequency = 2] that has counted [n] checkpoints. *)
Definition world_counting (n : Z) (steps : option Z) : world :=
  {| hook := set_checkpoints_since_eval n
               (set_latest_checkpoint (Some "ckpt-a")
                  (EvaluationRunHook "job" (PyInt 2) steps));
     trace := [] |}.

(** [holds_guard] on the program point alone. *)
Definition holding (p : pc) : bool := holds_guard {| cb_of := AfterRun; at_pc := p |}.

(** As many threads are in the guarded region as the guard says: one when
    it is held, none when it is free. *)
Definition guard_invariant (p : pool) : Prop :=
  count holds_guard (threads p) = Nat.b2n (_eval_lock (hook (shared p))).

(** Case analysis along a callback: on the locks, the comparisons and the
    evaluation pass, again with its frame lemma. *)
Ltac solo_case frame :=
  repeat match goal with
  | |- context [if ?b then _ else _] =>
      match b with
      | _eval_lock _ => destruct b eqn:?
      | _checkpoint_lock _ => destruct b eqn:?
      | negb (bool_decide _) => destruct b eqn:?
      end; simpl
  | |- context [match py_int_gt ?pv ?n ?v with _ => _ end] =>
      destruct (py_int_gt pv n v) as [[|] | ?]; simpl
  | H : _run_eval ?fu ?se ?W = _ |- context [_run_eval ?fu ?se ?W] =>
      rewrite H; simpl
  | |- context [_run_eval ?fu ?se ?W] =>
      let F := fresh "F" in
      pose proof (frame fu se W) as F; simpl in F;
      destruct (_run_eval fu se W) as [[] ? | ? ? |] eqn:?; simpl
  | F : _ ∧ same_outside_file_writer _ _ ∧ _ |- _ =>
      let L := fresh "L" in
      destruct F as (_ & (_ & _ & _ & _ & _ & L & _) & _); simpl in L; try rewrite L; simpl
  | F : _ ∧ hook _ = _ |- _ =>
      let L := fresh "L" in
      destruct F as (_ & L); simpl in L; try rewrite L; simpl
  end.

(** An environment in which an evaluation is still running at the end of
    a step, one in which it completes, and three callbacks in flight on a
    hook with [eval_frequency = 0], each scheduled twelve times in turn. *)
Definition sample_oracle : oracle :=
  {| o_latest := Returns (Some "ckpt-1"); o_fuel := 0; o_session := unbounded_session 7 |}.

Definition sample_oracle_done : oracle :=
  {| o_latest := Returns (Some "ckpt-1"); o_fuel := 5; o_session := unbounded_session 7 |}.

Definition sample_pool : pool :=
  spawn [AfterRun; AfterRun; End] (EvaluationRunHook "job" (PyInt 0) (Some 3)).

Definition sample_schedule : list (nat * oracle) :=
  repeat (0%nat, sample_oracle) 12 ++ repeat (1%nat, sample_oracle) 12
    ++ repeat (2%nat, sample_oracle) 12.

(** Sample [TF_CONFIG] documents, as text and as [json.loads] decodes
    them. *)
Definition dq : string := String (Ascii.ascii_of_nat 34) EmptyString.
Definition quoted (s : string) : string := dq +:+ s +:+ dq.

(** A task without a cluster topology. *)
Definition text_no_cluster : string :=
  "{" +:+ quoted "task" +:+ ": {" +:+ quoted "type" +:+ ": " +:+ quoted "worker"
    +:+ ", " +:+ quoted "index" +:+ ": 0}}".

Definition config_no_cluster : json :=
  JDict {[ "task" := JDict (<[ "type" := JStr "worker" ]> {[ "index" := JInt 0 ]}) ]}.

(** A role the dispatcher does not know, declared in the topology. *)
Definition text_evaluator : string :=
  "{" +:+ quoted "cluster" +:+ ": {" +:+ quoted "evaluator" +:+ ": ["
    +:+ quoted "localhost:2222" +:+ "]}, " +:+ quoted "task" +:+ ": {" +:+ quoted "type"
    +:+ ": " +:+ quoted "evaluator" +:+ ", " +:+ quoted "index" +:+ ": 0}}".

Definition config_evaluator : json :=
  JDict (<[ "cluster" := JDict {[ "evaluator" := JList [JStr "localhost:2222"] ]} ]>
         {[ "task" := JDict (<[ "type" := JStr "evaluator" ]> {[ "index" := JInt 0 ]}) ]}).

(** A master and a worker of one cluster. *)
Definition sample_cluster : json :=
  JDict (<[ "master" := JList [JStr "localhost:2222"] ]>
         {[ "worker" := JList [JStr "localhost:2223"; JStr "localhost:2224";
                               JStr "localhost:2225"] ]}).

Definition config_of_task (role : string) (index : Z) : json :=
  JDict (<[ "cluster" := sample_cluster ]>
         {[ "task" := JDict (<[ "type" := JStr role ]> {[ "index" := JInt index ]}) ]}).

(** A topology and a role name, but no task index. *)
Definition config_no_index : json :=
  JDict (<[ "cluster" := sample_cluster ]>
         {[ "task" := JDict {[ "type" := JStr "worker" ]} ]}).

(** Externals for the samples: [json.loads] decodes the one document it is
    given, [ClusterSpec] accepts a dictionary and raises [TypeError] on
    anything else, and the server comes up. *)
Definition sample_externals (text : string) (config : json) : externals :=
  {| json_loads := fun t => if bool_decide (t = text) then Returns config
                            else Raises ValueError;
     ClusterSpec := fun cluster =>
       match cluster with
       | JDict _ => Returns tt
       | _ => Raises TypeError
       end;
     Server := fun _ _ _ => Returns "grpc://localhost:2222"%string |}.

Definition sample_args : run_args :=
  {| train_steps := Some 1000; eval_steps := Some 50; job_dir := "job";
     eval_frequency := PyInt 1; train_batch_size := 40; eval_batch_size := 40 |}.

(** A hook that has counted five checkpoints, for a given
    [eval_frequency]. *)
Definition world_five_checkpoints (freq : pyval) : world :=
  {| hook := set_checkpoints_since_eval 5
               (set_latest_checkpoint (Some "ckpt-5")
                  (EvaluationRunHook "job" freq (Some 3)));
     trace := [] |}.

(** ** The training loop of [run]

    What the loop sees of the monitored session: the global step read
    before the loop, what [session.should_stop()] answers at the check
    before run [i], and the global step that
    [session.run([global_step, train_op])] answers in run [i]. *)
Record train_session := {
  initial_step : Z;
  train_should_stop : nat → bool;
  train_run : nat → outcome Z }.

(** How the loop is left: by its condition, after so many runs and with
    the last step read, or by an exception of a run. *)
Inductive train_exit :=
| Trained_until (runs : nat) (step : Z)
| Train_raised (runs : nat) (e : exn).

(** [train_steps is None or step < train_steps] *)
Definition steps_left (steps : option Z) (step : Z) : bool :=
  match steps with
  | None => true
  | Some n => step <? n
  end.

(** The [while] loop of [run]; [None] when the fuel runs out. *)
Fixpoint train_loop (fuel : nat) (steps : option Z) (ts : train_session)
    (i : nat) (step : Z) : option train_exit :=
  match fuel with
  | O => None
  | S fuel' =>
      if steps_left steps step && negb (train_should_stop ts i) then
        match train_run ts i with
        | Returns step' => train_loop fuel' steps ts (S i) step'
        | Raises e => Some (Train_raised i e)
        end
      else Some (Trained_until i step)
  end.

(** The loop from the step the session starts at. *)
Definition train (fuel : nat) (steps : option Z) (ts : train_session) : option train_exit :=
  train_loop fuel steps ts 0 (initial_step ts).

(** The global step seen at the check before run [i]. *)
Definition step_before (ts : train_session) (i : nat) : outcome Z :=
  match i with
  | O => Returns (initial_step ts)
  | S j => train_run ts j
  end.

(** A single worker that starts at step [s0]: every run adds one to the
    global step and nothing asks to stop. *)
Definition single_worker (s0 : Z) : train_session :=
  {| initial_step := s0;
     train_should_stop := fun _ => false;
     train_run := fun i => Returns (s0 + Z.of_nat i + 1) |}.

(** A session in which another hook asks to stop before run [k]. *)
Definition stopped_before (k : nat) (s0 : Z) : train_session :=
  {| initial_step := s0;
     train_should_stop := fun i => bool_decide (k ≤ i)%nat;
     train_run := fun i => Returns (s0 + Z.of_nat i + 1) |}.

(** [eval_step % 100 == 0]: the iterations that log a progress line. *)
Definition logs_progress (eval_step : nat) : bool := Z.of_nat eval_step mod 100 =? 0.

(** A session that cannot restore without a checkpoint, as
    [tf.train.Saver.restore] refuses a [None] path. *)
Definition needs_checkpoint (step : Z) : eval_session :=
  {| restore := fun c => match c with
                         | Some _ => Returns step
                         | None => Raises ValueError
                         end;
     should_stop := fun _ => false;
     session_run := fun _ => Returns "summary"%string |}.

(** A session whose third iteration fails with an error that is no clean
    stop. *)
Definition fails_in_third (step : Z) : eval_session :=
  {| restore := fun _ => Returns step;
     should_stop := fun _ => false;
     session_run := fun i => if (i <? 2)%nat then Returns "summary"%string
                             else Raises (ExternalError "InvalidArgumentError") |}.

(** [after_run] once per observation of the checkpoint directory, each
    call after the one before has returned. *)
Fixpoint after_runs (pv : py_version) (fuel : nat) (es : eval_session)
    (obs : list (option ckpt)) : M unit :=
  match obs with
  | [] => ret tt
  | o :: rest =>
      bind (after_run pv (Returns o) fuel es) (fun _ => after_runs pv fuel es rest)
  end.

(** The program points between taking the checkpoint guard and giving it
    back. *)
Definition in_update (t : thread) : bool :=
  match at_pc t with
  | Upd_observe | Upd_compare _ | Upd_load _ | Upd_store _ _ | Upd_set_latest _
  | Upd_release _ => true
  | _ => false
  end.

(** [in_update] on the program point alone. *)
Definition updating (p : pc) : bool := in_update {| cb_of := AfterRun; at_pc := p |}.

(** As many threads are inside the update as the checkpoint guard says. *)
Definition update_invariant (p : pool) : Prop :=
  count in_update (threads p) = Nat.b2n (_checkpoint_lock (hook (shared p))).

Definition is_Finished (p : pc) : bool :=
  match p with
  | Finished _ => true
  | _ => false
  end.

(** An environment in which an evaluation ends at once: the restore
    fails. *)
Definition failing_oracle : oracle :=
  {| o_latest := Returns None;
     o_fuel := 0;
     o_session := {| restore := fun _ => Raises ValueError;
                     should_stop := fun _ => false;
                     session_run := fun _ => Raises ValueError |} |}.

(** Two [after_run] callbacks on a hook with [eval_frequency = k] that has
    counted [k] checkpoints and seen [o0] last, and the environment of
    each: the first finds [o1] the latest checkpoint, the second, started
    later, [o2]. *)
Definition race_pool (k : Z) (o0 : option ckpt) : pool :=
  spawn [AfterRun; AfterRun]
    (set_checkpoints_since_eval k
       (set_latest_checkpoint o0 (EvaluationRunHook "job" (PyInt k) (Some 3)))).

Definition sees (o : option ckpt) : oracle :=
  {| o_latest := Returns o; o_fuel := 0; o_session := unbounded_session 7 |}.

(** The first callback runs up to its reset of the counter; the second
    runs its update up to the store of the incremented counter; the first
    resets; the second stores. *)
Definition race_schedule (o1 o2 : option ckpt) : list (nat * oracle) :=
  repeat (0%nat, sees o1) 9 ++ repeat (1%nat, sees o2) 4
    ++ [(0%nat, sees o1); (1%nat, sees o2)].

(** Whether [dispatch] can read the task of a decoded description: the
    description is a dictionary whose ["task"], when there is one, is a
    dictionary. *)
Definition well_shaped (config : json) : bool :=
  match config with
  | JDict m =>
      match m !! "task" with
      | None | Some (JDict _) => true
      | Some _ => false
      end
  | _ => false
  end.

(** The description [{"task": null}]. *)
Definition config_null_task : json := JDict {[ "task" := JNull ]}.

(** A hook on which an evaluation is under way: the evaluation guard is
    held by another callback. *)
Definition world_evaluating : world :=
  {| hook := set_lock EvalLock true (EvaluationRunHook "job" (PyInt 1) (Some 3));
     trace := [] |}.

(** One step of a schedule on a pool that is written out: [cons] unfolds
    the schedule by one pick, and the facts [E1], [E2], [E3] are used where
    a comparison of the step needs them. *)
Ltac sched_next cons E1 E2 E3 :=
  rewrite cons;
  match goal with
  | |- run_schedule ?pv ?s (sched_step ?pv ?p ?x) = _ =>
      let H := fresh "H" in
      eassert (H : sched_step pv p x = _);
      [ unfold sched_step, thread_step, acquire, release; simpl;
        rewrite ?E1, ?E2, ?E3; simpl; reflexivity
      | rewrite H; clear H ]
  end.

(** * Properties *)

(** ** The checkpoint tracker *)

Lemma update_free (latest : option ckpt) (w : world) :
  _checkpoint_lock (hook w) = false →
  ∃ w', _update_latest_checkpoint (Returns latest) w = Ret tt w' ∧
    _checkpoints_since_eval (hook w') =
      _checkpoints_since_eval (hook w)
      + (if bool_decide (latest = _latest_checkpoint (hook w)) then 0 else 1) ∧
    _latest_checkpoint (hook w') = latest ∧
    _checkpoint_lock (hook w') = false ∧
    same_outside_checkpoint_state (hook w) (hook w') ∧
    trace w' = trace w ++ [Ev_acquire CheckpointLock false true; Ev_release CheckpointLock].
Proof.
  intros Hfree. destruct w as [h tr]. simpl in Hfree.
  run_py. rewrite Hfree. simpl.
  destruct (bool_decide (latest = _latest_checkpoint h)) eqn:E; simpl;
    eexists; (split; [reflexivity |]); simpl;
    rewrite <- ?app_assoc; simpl; unfold same_outside_checkpoint_state; simpl.
  - apply bool_decide_eq_true in E. repeat split; auto. lia.
  - repeat split; auto.
Qed.

Lemma update_held (latest : outcome (option ckpt)) (w : world) :
  _checkpoint_lock (hook w) = true →
  _update_latest_checkpoint latest w =
    Ret tt {| hook := hook w; trace := trace w ++ [Ev_acquire CheckpointLock false false] |}.
Proof.
  intros Hheld. run_py. rewrite Hheld. reflexivity.
Qed.

Lemma update_raises (e : exn) (w : world) :
  _checkpoint_lock (hook w) = false →
  ∃ w', _update_latest_checkpoint (Raises e) w = Exc e w' ∧ hook w' = hook w ∧
    trace w' = trace w ++ [Ev_acquire CheckpointLock false true; Ev_release CheckpointLock].
Proof.
  intros Hfree. destruct w as [h tr]. simpl in Hfree. run_py. rewrite Hfree. simpl.
  eexists. split; [reflexivity |]. simpl. rewrite <- app_assoc. split; [| reflexivity].
  destruct h; simpl in *. subst. reflexivity.
Qed.

(** The update never waits: it returns or raises. *)
Lemma update_total (latest : outcome (option ckpt)) (w : world) :
  _update_latest_checkpoint latest w ≠ Timeout.
Proof.
  destruct (_checkpoint_lock (hook w)) eqn:L.
  - rewrite update_held by done. done.
  - destruct latest as [l | e].
    + destruct (update_free l w L) as (w' & -> & _). done.
    + destruct (update_raises e w L) as (w' & -> & _). done.
Qed.

Lemma last_cons_default {A} (l : list A) : ∀ (x a b : A),
  default a (last (x :: l)) = default b (last (x :: l)).
Proof.
  induction l as [| y l IH]; intros x a b; [reflexivity |].
  change (last (x :: y :: l)) with (last (y :: l)). apply IH.
Qed.

Lemma observe_all_free (obs : list (option ckpt)) : ∀ w : world,
  _checkpoint_lock (hook w) = false →
  ∃ w', observe_all obs w = Ret tt w' ∧
    _checkpoints_since_eval (hook w') =
      _checkpoints_since_eval (hook w) + changes (_latest_checkpoint (hook w)) obs ∧
    _latest_checkpoint (hook w') = default (_latest_checkpoint (hook w)) (last obs) ∧
    _checkpoint_lock (hook w') = false ∧
    same_outside_checkpoint_state (hook w) (hook w').
Proof.
  induction obs as [| o rest IH]; intros w Hfree; simpl.
  - exists w. unfold ret, same_outside_checkpoint_state. repeat split; auto. lia.
  - destruct (update_free o w Hfree) as (w1 & Hrun & Hcount & Hlatest & Hlock & Hsame & _).
    destruct (IH w1 Hlock) as (w2 & Hrest & Hcount2 & Hlatest2 & Hlock2 & Hsame2).
    exists w2. unfold bind. rewrite Hrun. split; [exact Hrest |].
    rewrite Hcount2, Hcount, Hlatest2, Hlatest.
    split; [lia |]. split; [| split; [exact Hlock2 |]].
    + destruct rest as [| o' rest']; [reflexivity |].
      rewrite (last_cons_default rest' o' o (_latest_checkpoint (hook w))).
      reflexivity.
    + unfold same_outside_checkpoint_state in *. intuition congruence.
Qed.

Lemma observe_all_held (obs : list (option ckpt)) : ∀ w : world,
  _checkpoint_lock (hook w) = true →
  ∃ w', observe_all obs w = Ret tt w' ∧ hook w' = hook w.
Proof.
  induction obs as [| o rest IH]; intros w Hheld; simpl.
  - exists w. split; reflexivity.
  - unfold bind. rewrite update_held by exact Hheld.
    destruct (IH {| hook := hook w;
                    trace := trace w ++ [Ev_acquire CheckpointLock false false] |} Hheld)
      as (w2 & Hrest & Hhook).
    exists w2. split; [exact Hrest | exact Hhook].
Qed.

(** C2.  A completed call of [_update_latest_checkpoint] that gets the
    checkpoint guard adds exactly 1 to [_checkpoints_since_eval] and stores
    the identifier when the observed latest checkpoint differs from the
    stored one, and leaves both fields as they are when it is the same; a
    call that finds the guard held returns without touching the hook; no
    other field of the hook changes and the guard is free again.  Over a
    sequence of observations the counter grows by the number of changes. *)
Theorem update_counts_checkpoint_changes
    (latest : option ckpt) (obs : list (option ckpt)) (w : world) :
  (∃ w', _update_latest_checkpoint (Returns latest) w = Ret tt w' ∧
     if _checkpoint_lock (hook w) then hook w' = hook w
     else
       _checkpoints_since_eval (hook w') =
         _checkpoints_since_eval (hook w)
         + (if bool_decide (latest = _latest_checkpoint (hook w)) then 0 else 1) ∧
       _latest_checkpoint (hook w') =
         (if bool_decide (latest = _latest_checkpoint (hook w))
          then _latest_checkpoint (hook w) else latest) ∧
       _checkpoint_lock (hook w') = false ∧
       same_outside_checkpoint_state (hook w) (hook w')) ∧
  (∃ w', observe_all obs w = Ret tt w' ∧
     if _checkpoint_lock (hook w) then hook w' = hook w
     else
       _checkpoints_since_eval (hook w') =
         _checkpoints_since_eval (hook w) + changes (_latest_checkpoint (hook w)) obs ∧
       _latest_checkpoint (hook w') = default (_latest_checkpoint (hook w)) (last obs) ∧
       _checkpoint_lock (hook w') = false ∧
       same_outside_checkpoint_state (hook w) (hook w')).
Proof.
  destruct (_checkpoint_lock (hook w)) eqn:L; split.
  - eexists. split; [apply update_held; exact L | reflexivity].
  - apply observe_all_held; exact L.
  - destruct (update_free latest w L) as (w' & Hrun & Hc & Hl & Hk & Hs & _).
    exists w'. split; [exact Hrun |].
    split; [exact Hc |]. split; [| split; [exact Hk | exact Hs]].
    rewrite Hl. case_bool_decide; congruence.
  - destruct (observe_all_free obs w L) as (w' & Hrun & H). exists w'. split; assumption.
Qed.

(** Three observations, two of them new: the counter goes from 0 to 2. *)
Example update_three_observations :
  ∃ w', observe_all [Some "ckpt-1"; Some "ckpt-1"; Some "ckpt-2"] world0 = Ret tt w' ∧
    _checkpoints_since_eval (hook w') = 2 ∧ _latest_checkpoint (hook w') = Some "ckpt-2".
Proof. eexists. split; [vm_compute; reflexivity | split; reflexivity]. Qed.

(** ** The evaluation loop *)

Section EvalLoop.
Variable eval_steps : option Z.
Variable es : eval_session.

Lemma eval_loop_reaches (n : nat) : ∀ (i fuel : nat) summ logged,
  (∀ j, (i ≤ j < i + n)%nat → stops_here eval_steps es j = false) →
  stops_here eval_steps es (i + n) = true →
  (n < fuel)%nat →
  ∃ ex, eval_loop fuel eval_steps es i summ logged = Some ex ∧
    iterations ex = (i + n)%nat ∧
    coord_exc ex = exit_exc eval_steps es (i + n) ∧
    (n = 0%nat → summaries ex = summ) ∧
    ((0 < n)%nat → is_Some (summaries ex)).
Proof.
  induction n as [| n IH]; intros i fuel summ logged Hgo Hstop Hfuel.
  - destruct fuel as [| fuel]; [lia |]. clear Hgo.
    rewrite Nat.add_0_r in *. simpl.
    unfold stops_here, yields in Hstop. unfold exit_exc.
    destruct (should_stop es i); simpl in *.
    + eexists. split; [reflexivity |]. simpl. repeat split; auto; lia.
    + destruct (within_budget eval_steps i); simpl in *.
      * destruct (session_run es i) as [s | e]; [discriminate |].
        eexists. split; [reflexivity |]. simpl. repeat split; auto; lia.
      * destruct (session_run es i); eexists; (split; [reflexivity |]);
          simpl; repeat split; auto; lia.
  - destruct fuel as [| fuel]; [lia |].
    assert (Hi : stops_here eval_steps es i = false) by (apply Hgo; lia).
    unfold stops_here, yields in Hi. simpl.
    destruct (should_stop es i); simpl in *; [discriminate |].
    destruct (session_run es i) as [s | e]; simpl in *; [| discriminate].
    destruct (within_budget eval_steps i); simpl in *; [| discriminate].
    destruct (IH (S i) fuel (Some s)
                (if Z.of_nat i `mod` 100 =? 0 then logged ++ [i] else logged))
      as (ex & Hrun & Hit & Hexc & _ & Hsome).
    + intros j Hj. apply Hgo. lia.
    + replace (S i + n)%nat with (i + S n)%nat by lia. exact Hstop.
    + lia.
    + exists ex. split; [exact Hrun |].
      replace (i + S n)%nat with (S i + n)%nat by lia.
      split; [exact Hit |]. split; [exact Hexc |]. split; [lia |].
      intros _. destruct n as [| n'].
      * destruct (IH (S i) fuel (Some s)
                    (if Z.of_nat i `mod` 100 =? 0 then logged ++ [i] else logged))
          as (ex' & Hrun' & _ & _ & Heq & _).
        -- intros j Hj. lia.
        -- replace (S i + 0)%nat with (i + 1)%nat by lia. exact Hstop.
        -- lia.
        -- rewrite Hrun in Hrun'. injection Hrun' as <-.
           rewrite Heq by reflexivity. eauto.
      * apply Hsome. lia.
Qed.

Lemma eval_loop_diverges (fuel : nat) : ∀ (i : nat) summ logged,
  (∀ j, stops_here eval_steps es j = false) →
  eval_loop fuel eval_steps es i summ logged = None.
Proof.
  induction fuel as [| fuel IH]; intros i summ logged Hgo; [reflexivity |].
  specialize (Hgo i) as Hi. unfold stops_here, yields in Hi. simpl.
  destruct (should_stop es i); simpl in *; [discriminate |].
  destruct (session_run es i) as [s | e]; simpl in *; [| discriminate].
  destruct (within_budget eval_steps i); simpl in *; [| discriminate].
  apply IH. exact Hgo.
Qed.

(** The loop counts upwards, and leaves [summaries] as it found it when
    it completes no iteration. *)
Lemma eval_loop_progress (fuel : nat) : ∀ (i : nat) summ logged ex,
  eval_loop fuel eval_steps es i summ logged = Some ex →
  (i ≤ iterations ex)%nat ∧ (iterations ex = i → summaries ex = summ) ∧
  (iterations ex ≠ i → is_Some (summaries ex)).
Proof.
  induction fuel as [| fuel IH]; intros i summ logged ex Hrun; [discriminate |].
  simpl in Hrun.
  destruct (negb (should_stop es i) && within_budget eval_steps i).
  - destruct (session_run es i) as [s | e].
    + apply IH in Hrun as (Hle & Heq & Hne). split; [lia |].
      split; [intros Hi; lia |]. intros _.
      destruct (decide (iterations ex = S i)) as [E | E].
      * rewrite (Heq E). eauto.
      * apply Hne. exact E.
    + injection Hrun as <-. simpl. split; [lia |]. split; [auto | congruence].
  - injection Hrun as <-. simpl. split; [lia |]. split; [auto | congruence].
Qed.
End EvalLoop.

(** C7.  With [eval_steps = N] and an input pipeline that never signals,
    the loop performs exactly [N] iterations (none for a negative [N]); when
    exhaustion or cancellation is signalled at iteration [k], before [N]
    iterations, the loop is left normally after [k] iterations, fewer than
    [N], and the coordinator keeps no exception; with [eval_steps]
    unspecified the loop runs until the signal, and without a signal it
    does not end. *)
Theorem eval_loop_iterations (es : eval_session) (N : Z) (k fuel : nat) :
  ((∀ i, yields es i = true) → (Z.to_nat N < fuel)%nat →
     ∃ ex, eval_loop fuel (Some N) es 0 None [] = Some ex ∧
       Z.of_nat (iterations ex) = Z.max 0 N ∧ coord_exc ex = None) ∧
  ((∀ i, (i < k)%nat → yields es i = true) → signals es k = true →
     Z.of_nat k < N → (k < fuel)%nat →
     ∃ ex, eval_loop fuel (Some N) es 0 None [] = Some ex ∧
       iterations ex = k ∧ Z.of_nat (iterations ex) < N ∧ coord_exc ex = None) ∧
  ((∀ i, (i < k)%nat → yields es i = true) → signals es k = true → (k < fuel)%nat →
     ∃ ex, eval_loop fuel None es 0 None [] = Some ex ∧
       iterations ex = k ∧ coord_exc ex = None) ∧
  ((∀ i, yields es i = true) → eval_loop fuel None es 0 None [] = None).
Proof.
  assert (Hsignal : ∀ steps, signals es k = true →
            stops_here steps es k = true ∧ exit_exc steps es k = None).
  { intros steps Hsig. unfold signals in Hsig. unfold stops_here, yields, exit_exc.
    destruct (should_stop es k); simpl in *; [done |].
    destruct (session_run es k) as [s | e]; [discriminate |]. simpl.
    rewrite Hsig. destruct (within_budget steps k); done. }
  split; [| split; [| split]].
  - intros Hyield Hfuel.
    destruct (eval_loop_reaches (Some N) es (Z.to_nat N) 0 fuel None [])
      as (ex & Hrun & Hit & Hexc & _); simpl.
    + intros j Hj. unfold stops_here. rewrite Hyield. simpl.
      apply negb_false_iff, Z.ltb_lt. lia.
    + unfold stops_here. rewrite Hyield. simpl.
      apply negb_true_iff, Z.ltb_ge. lia.
    + exact Hfuel.
    + exists ex. split; [exact Hrun |]. split; [simpl in Hit; lia |].
      rewrite Hexc. unfold exit_exc. simpl.
      replace (Z.of_nat (Z.to_nat N) <? N) with false
        by (symmetry; apply Z.ltb_ge; lia).
      rewrite andb_false_r. reflexivity.
  - intros Hyield Hsig Hlt Hfuel.
    destruct (Hsignal (Some N) Hsig) as [Hstop Hclean].
    destruct (eval_loop_reaches (Some N) es k 0 fuel None [])
      as (ex & Hrun & Hit & Hexc & _); simpl; try assumption.
    + intros j Hj. unfold stops_here. rewrite Hyield by lia. simpl.
      apply negb_false_iff, Z.ltb_lt. lia.
    + exists ex. simpl in Hit, Hexc. rewrite Hit, Hexc. auto.
  - intros Hyield Hsig Hfuel.
    destruct (Hsignal None Hsig) as [Hstop Hclean].
    destruct (eval_loop_reaches None es k 0 fuel None [])
      as (ex & Hrun & Hit & Hexc & _); simpl; try assumption.
    + intros j Hj. unfold stops_here. rewrite Hyield by lia. reflexivity.
    + exists ex. simpl in Hit, Hexc. rewrite Hit, Hexc. auto.
  - intros Hyield. apply eval_loop_diverges.
    intros j. unfold stops_here. rewrite Hyield. reflexivity.
Qed.

Lemma exhausted_after_yields (k : nat) (step : Z) (i : nat) :
  (i < k)%nat → yields (exhausted_after k step) i = true.
Proof.
  intros Hi. unfold yields, exhausted_after. simpl.
  destruct (Nat.ltb_spec i k); [reflexivity | lia].
Defined.

(** [eval_steps = 50]: 50 iterations on an unbounded pipeline, 20 when the
    pipeline is exhausted after 20 batches. *)
Lemma eval_loop_iterations_witness :
  (∃ ex, eval_loop 51 (Some 50) (unbounded_session 7) 0 None [] = Some ex ∧
     Z.of_nat (iterations ex) = Z.max 0 50 ∧ coord_exc ex = None) ∧
  (∃ ex, eval_loop 51 (Some 50) (exhausted_after 20 7) 0 None [] = Some ex ∧
     iterations ex = 20%nat ∧ Z.of_nat (iterations ex) < 50 ∧ coord_exc ex = None) ∧
  (∃ ex, eval_loop 51 None (exhausted_after 20 7) 0 None [] = Some ex ∧
     iterations ex = 20%nat ∧ coord_exc ex = None) ∧
  eval_loop 51 None (unbounded_session 7) 0 None [] = None.
Proof.
  split; [| split; [| split]].
  - apply (proj1 (eval_loop_iterations (unbounded_session 7) 50 20 51)).
    + intros i. reflexivity.
    + simpl. lia.
  - apply (proj1 (proj2 (eval_loop_iterations (exhausted_after 20 7) 50 20 51))).
    + apply exhausted_after_yields.
    + reflexivity.
    + lia.
    + lia.
  - apply (proj1 (proj2 (proj2 (eval_loop_iterations (exhausted_after 20 7) 50 20 51)))).
    + apply exhausted_after_yields.
    + reflexivity.
    + lia.
  - apply (proj2 (proj2 (proj2 (eval_loop_iterations (unbounded_session 7) 50 20 51)))).
    intros i. reflexivity.
Defined.

Example eval_loop_fifty :
  eval_loop 51 (Some 50) (unbounded_session 7) 0 None [] =
    Some {| iterations := 50; summaries := Some "summary"; progress := [0%nat];
            coord_exc := None |}.
Proof. vm_compute. reflexivity. Qed.

(** ** The evaluation pass *)

(** A pass whose loop completes at least one iteration writes and flushes
    one summary, tagged with the restored step. *)
Lemma run_eval_writes (fuel : nat) (es : eval_session) (w : world) (step : Z)
    (ex : loop_exit) :
  restore es (_latest_checkpoint (hook w)) = Returns step →
  eval_loop fuel (_eval_steps (hook w)) es 0 None [] = Some ex →
  iterations ex ≠ 0%nat →
  ∃ s, summaries ex = Some s ∧
    _run_eval fuel es w =
      Ret tt {| hook := set_file_writer
                          (flush (add_summary s step (_file_writer (hook w)))) (hook w);
                trace := trace w ++ [Ev_run_eval (_latest_checkpoint (hook w))] |}.
Proof.
  intros Hrestore Hloop Hiter.
  destruct (eval_loop_progress _ _ _ _ _ _ _ Hloop) as (_ & _ & Hsome).
  destruct (Hsome Hiter) as [s Hs]. exists s. split; [exact Hs |].
  run_py. rewrite Hrestore. simpl. rewrite Hloop. simpl. rewrite Hs. reflexivity.
Qed.

(** C10.  A pass whose loop completes zero iterations raises
    [UnboundLocalError] at the use of [summaries] after the loop: nothing is
    added to the file writer and nothing is flushed. *)
Theorem run_eval_zero_iterations (fuel : nat) (es : eval_session) (w : world)
    (step : Z) (ex : loop_exit) :
  restore es (_latest_checkpoint (hook w)) = Returns step →
  eval_loop fuel (_eval_steps (hook w)) es 0 None [] = Some ex →
  iterations ex = 0%nat →
  ∃ w', _run_eval fuel es w = Exc UnboundLocalError w' ∧
    _file_writer (hook w') = _file_writer (hook w).
Proof.
  intros Hrestore Hloop Hiter.
  destruct (eval_loop_progress _ _ _ _ _ _ _ Hloop) as (_ & Hnone & _).
  specialize (Hnone Hiter).
  run_py. rewrite Hrestore. simpl. rewrite Hloop. simpl. rewrite Hnone.
  eexists. split; reflexivity.
Qed.

(** [eval_steps = 0] on an unbounded pipeline. *)
Lemma run_eval_zero_iterations_witness :
  ∃ w', _run_eval 5 (unbounded_session 7) world_eval_steps_0 = Exc UnboundLocalError w' ∧
    _file_writer (hook w') = _file_writer (hook world_eval_steps_0).
Proof.
  apply (run_eval_zero_iterations 5 (unbounded_session 7) world_eval_steps_0 7
           {| iterations := 0; summaries := None; progress := []; coord_exc := None |});
    reflexivity.
Defined.

(** The pipeline is exhausted before the first iteration, with and without
    an iteration budget. *)
Example run_eval_exhausted_at_once :
  (∃ w', _run_eval 5 (exhausted_after 0 7) world0 = Exc UnboundLocalError w') ∧
  (∃ w', _run_eval 5 (exhausted_after 0 7)
           {| hook := EvaluationRunHook "job" (PyInt 1) None; trace := [] |}
         = Exc UnboundLocalError w').
Proof. split; eexists; vm_compute; reflexivity. Qed.

(** An evaluation pass is recorded once in the trace and touches nothing of
    the hook but the file writer; it fails to come back only when its loop
    does not end. *)
Lemma run_eval_frame (fuel : nat) (es : eval_session) (w : world) :
  match _run_eval fuel es w with
  | Ret _ w' =>
      trace w' = trace w ++ [Ev_run_eval (_latest_checkpoint (hook w))] ∧
      same_outside_file_writer (hook w) (hook w') ∧
      ∃ s step, restore es (_latest_checkpoint (hook w)) = Returns step ∧
        _file_writer (hook w') = flush (add_summary s step (_file_writer (hook w)))
  | Exc _ w' =>
      trace w' = trace w ++ [Ev_run_eval (_latest_checkpoint (hook w))] ∧
      hook w' = hook w
  | Timeout => eval_loop fuel (_eval_steps (hook w)) es 0 None [] = None
  end.
Proof.
  destruct w as [h tr]. run_py.
  destruct (restore es (_latest_checkpoint h)) as [step | e]; simpl; [| done].
  destruct (eval_loop fuel (_eval_steps h) es 0 None []) as [ex |]; simpl; [| done].
  destruct (summaries ex) as [s |]; simpl; [| done].
  split; [done |]. split; [unfold same_outside_file_writer; simpl; done |].
  exists s, step. done.
Qed.

(** The update leaves the evaluation guard alone. *)
Lemma update_keeps_eval_lock (latest : outcome (option ckpt)) (w : world) :
  match _update_latest_checkpoint latest w with
  | Ret _ w1 | Exc _ w1 =>
      _eval_lock (hook w1) = _eval_lock (hook w) ∧
      _eval_steps (hook w1) = _eval_steps (hook w) ∧
      ∃ evs, trace w1 = trace w ++ evs ∧ run_eval_calls evs = 0%nat ∧
        head evs = Some (Ev_acquire CheckpointLock false
                           (negb (_checkpoint_lock (hook w))))
  | Timeout => False
  end.
Proof.
  destruct (_checkpoint_lock (hook w)) eqn:L.
  - rewrite update_held by exact L. simpl. repeat split. eexists. repeat split.
  - destruct latest as [l | e].
    + destruct (update_free l w L) as (w1 & -> & _ & _ & _ & Hs & Ht).
      destruct Hs as (? & _ & _ & ? & _). repeat split; try assumption.
      eexists. split; [exact Ht |]. split; reflexivity.
    + destruct (update_raises e w L) as (w1 & -> & Hh & Ht). rewrite Hh.
      repeat split. eexists. split; [exact Ht |]. split; reflexivity.
Qed.

Lemma run_eval_calls_app (a b : list event) :
  run_eval_calls (a ++ b) = (run_eval_calls a + run_eval_calls b)%nat.
Proof. unfold run_eval_calls. induction a as [| x a IH]; simpl; lia. Qed.

(** C1.  [after_run] first calls the checkpoint-state update, then tries
    the evaluation guard without blocking.  It resets the counter to 0 and
    calls [_run_eval], once, exactly when it got the guard and the counter
    is strictly greater than [_eval_every] (a counter equal to it does not
    trigger), and on every way out, an exception of [_run_eval] included,
    the guard is as it was found: released again when it was taken. *)
Theorem after_run_evaluates_when_due (pv : py_version)
    (latest : outcome (option ckpt)) (fuel : nat) (es : eval_session) (w : world) :
  match _update_latest_checkpoint latest w with
  | Timeout => False
  | Exc e w1 => after_run pv latest fuel es w = Exc e w1
  | Ret _ w1 =>
      let triggered := negb (_eval_lock (hook w)) && due pv (hook w1) in
      (∀ k, _eval_every (hook w1) = PyInt k →
         due pv (hook w1) = (k <? _checkpoints_since_eval (hook w1))) ∧
      match after_run pv latest fuel es w with
      | Ret _ w' | Exc _ w' =>
          ∃ guarded,
            trace w' =
              trace w1 ++ Ev_acquire EvalLock false (negb (_eval_lock (hook w))) :: guarded ∧
            run_eval_calls guarded = (if triggered then 1 else 0)%nat ∧
            _checkpoints_since_eval (hook w') =
              (if triggered then 0 else _checkpoints_since_eval (hook w1)) ∧
            _eval_lock (hook w') = _eval_lock (hook w) ∧
            (if _eval_lock (hook w) then guarded = []
             else last guarded = Some (Ev_release EvalLock))
      | Timeout =>
          triggered = true ∧ eval_loop fuel (_eval_steps (hook w)) es 0 None [] = None
      end
  end.
Proof.
  pose proof (update_keeps_eval_lock latest w) as U.
  destruct (_update_latest_checkpoint latest w) as [[] w1 | e w1 |] eqn:HU; [| | done].
  2: { unfold after_run, bind. rewrite HU. reflexivity. }
  destruct U as (Hlock & Hsteps & _). rewrite <- Hlock, <- Hsteps.
  split.
  { intros k Hk. unfold due, py_int_gt. rewrite Hk. reflexivity. }
  unfold after_run, bind. rewrite HU. clear HU Hlock Hsteps.
  destruct w1 as [h tr]. unfold due. run_cb.
  destruct (_eval_lock h) eqn:L; simpl.
  { eexists. split; [reflexivity |]. rewrite L. done. }
  destruct (py_int_gt pv (_checkpoints_since_eval h) (_eval_every h)) as [[|] | e]; simpl.
  - frame_run_eval run_eval_frame.
    + destruct F as (Ht & Hs & _). destruct Hs as (_ & _ & _ & _ & Hc & Hl & _).
      rewrite Hl. simpl. rewrite Hc, Ht, <- !app_assoc. simpl.
      eexists. split; [reflexivity |]. done.
    + destruct F as (Ht & Hh). rewrite Hh. simpl. rewrite Ht, <- !app_assoc. simpl.
      eexists. split; [reflexivity |]. done.
    + split; [reflexivity | exact F].
  - rewrite ?L; simpl. rewrite <- ?app_assoc; simpl.
    eexists. split; [reflexivity |]. done.
  - rewrite ?L; simpl. rewrite <- ?app_assoc; simpl.
    eexists. split; [reflexivity |]. done.
Qed.

(** With [eval_frequency = 2]: two new checkpoints do not trigger an
    evaluation, the third does; and an evaluation that raises leaves the
    guard free. *)
Example after_run_at_the_threshold :
  (∃ w', after_run Py3 (Returns (Some "ckpt-b")) 10 (unbounded_session 7)
           (world_counting 1 (Some 3)) = Ret tt w' ∧
     _checkpoints_since_eval (hook w') = 2 ∧ run_eval_calls (trace w') = 0%nat) ∧
  (∃ w', after_run Py3 (Returns (Some "ckpt-b")) 10 (unbounded_session 7)
           (world_counting 2 (Some 3)) = Ret tt w' ∧
     _checkpoints_since_eval (hook w') = 0 ∧ run_eval_calls (trace w') = 1%nat) ∧
  (∃ w', after_run Py3 (Returns (Some "ckpt-b")) 10 (unbounded_session 7)
           (world_counting 2 (Some 0)) = Exc UnboundLocalError w' ∧
     _eval_lock (hook w') = false ∧ run_eval_calls (trace w') = 1%nat).
Proof. repeat split; eexists; (split; [vm_compute; reflexivity | done]). Qed.


(** No new checkpoint since the last evaluation, none at all: [end] still
    evaluates once. *)
Example end_with_counter_zero :
  _checkpoints_since_eval (hook world0) = 0 ∧
  ∃ w', end_ (Returns None) 10 (unbounded_session 7) world0 = Ret tt w' ∧
    run_eval_calls (trace w') = 1%nat ∧
    fw_flushed (_file_writer (hook w')) = [("summary"%string, 7)].
Proof. split; [reflexivity |]. eexists. split; [vm_compute; reflexivity | done]. Qed.

(** ** The evaluation guard under overlapping callbacks *)

Lemma count_app {A} (f : A → bool) (l l' : list A) :
  count f (l ++ l') = (count f l + count f l')%nat.
Proof. induction l as [| x l IH]; simpl; lia. Qed.

Lemma count_insert {A} (f : A → bool) (l : list A) : ∀ (i : nat) (x y : A),
  l !! i = Some x →
  (count f (<[i := y]> l) + Nat.b2n (f x) = count f l + Nat.b2n (f y))%nat.
Proof.
  induction l as [| z l IH]; intros i x y Hi; [discriminate |].
  destruct i as [| i]; simpl in *.
  - injection Hi as ->. destruct (f x), (f y); simpl; lia.
  - specialize (IH i x y Hi). lia.
Qed.

Lemma count_pos_lookup {A} (f : A → bool) (l : list A) (i : nat) (x : A) :
  l !! i = Some x → f x = true → (1 ≤ count f l)%nat.
Proof.
  revert i. induction l as [| z l IH]; intros i Hi Hx; [discriminate |].
  destruct i as [| i]; simpl in *.
  - injection Hi as ->. rewrite Hx. lia.
  - specialize (IH i Hi Hx). lia.
Qed.

Lemma count_le_1_unique {A} (f : A → bool) (l : list A) : ∀ (i j : nat) (x y : A),
  (count f l ≤ 1)%nat → l !! i = Some x → l !! j = Some y →
  f x = true → f y = true → i = j.
Proof.
  induction l as [| z l IH]; intros i j x y Hle Hi Hj Hx Hy; [discriminate |].
  simpl in Hle. destruct i as [| i], j as [| j]; simpl in *.
  - reflexivity.
  - injection Hi as ->. rewrite Hx in Hle.
    pose proof (count_pos_lookup f l j y Hj Hy). lia.
  - injection Hj as ->. rewrite Hy in Hle.
    pose proof (count_pos_lookup f l i x Hi Hx). lia.
  - f_equal. apply (IH i j x y); auto. destruct (f z); lia.
Qed.

(** A step moves a thread into the guarded region exactly when it takes
    the evaluation guard, and out of it exactly when it gives it back. *)
Lemma thread_step_guard (pv : py_version) (o : oracle) (cb : callback) (p p' : pc)
    (w w' : world) :
  thread_step pv o cb p w = Some (p', w') →
  (holding p = true → _eval_lock (hook w) = true) →
  (Nat.b2n (holding p') + Nat.b2n (_eval_lock (hook w)) =
   Nat.b2n (holding p) + Nat.b2n (_eval_lock (hook w')))%nat.
Proof.
  intros Hstep Hheld. destruct p; simpl in Hstep.
  - (* At_update *)
    unfold acquire in Hstep. simpl in Hstep.
    destruct (_checkpoint_lock (hook w)); injection Hstep as <- <-; reflexivity.
  - destruct (o_latest o); injection Hstep as <- <-; reflexivity.
  - destruct (negb _); injection Hstep as <- <-; reflexivity.
  - injection Hstep as <- <-; reflexivity.
  - injection Hstep as <- <-; reflexivity.
  - injection Hstep as <- <-; reflexivity.
  - (* Upd_release *)
    unfold release in Hstep. simpl in Hstep.
    destruct (_checkpoint_lock (hook w)); [destruct pending |];
      injection Hstep as <- <-; reflexivity.
  - (* At_eval_acquire *)
    unfold acquire in Hstep. simpl in Hstep.
    destruct cb, (_eval_lock (hook w)) eqn:L; try discriminate;
      injection Hstep as <- <-; simpl; rewrite ?L; reflexivity.
  - (* Eval_compare *)
    destruct (py_int_gt pv _ _) as [[|] | e]; injection Hstep as <- <-; reflexivity.
  - injection Hstep as <- <-; reflexivity.
  - (* Eval_run *)
    pose proof (run_eval_frame (o_fuel o) (o_session o) w) as F.
    destruct (_run_eval (o_fuel o) (o_session o) w) as [[] w1 | e w1 |];
      injection Hstep as <- <-.
    + destruct F as (_ & Hs & _). destruct Hs as (_ & _ & _ & _ & _ & -> & _).
      reflexivity.
    + destruct F as (_ & ->). reflexivity.
    + reflexivity.
  - (* Eval_release *)
    unfold release in Hstep. simpl in Hstep.
    pose proof (Hheld eq_refl) as L. rewrite L in Hstep.
    injection Hstep as <- <-. simpl. rewrite L. reflexivity.
  - discriminate.
Qed.

Lemma sched_step_invariant (pv : py_version) (p : pool) (pick : nat * oracle) :
  guard_invariant p → guard_invariant (sched_step pv p pick).
Proof.
  unfold guard_invariant, sched_step. intros Hinv.
  destruct (threads p !! pick.1) as [t |] eqn:Hi; [| exact Hinv].
  destruct (thread_step pv pick.2 (cb_of t) (at_pc t) (shared p)) as [[p' w'] |] eqn:Hstep;
    [| exact Hinv].
  simpl.
  pose proof (count_insert holds_guard (threads p) pick.1 t
                {| cb_of := cb_of t; at_pc := p' |} Hi) as Hcount.
  assert (Hheld : holding (at_pc t) = true → _eval_lock (hook (shared p)) = true).
  { intros Hh. pose proof (count_pos_lookup holds_guard _ _ _ Hi Hh) as Hpos.
    rewrite Hinv in Hpos. destruct (_eval_lock (hook (shared p))); [done | simpl in Hpos; lia]. }
  pose proof (thread_step_guard _ _ _ _ _ _ _ Hstep Hheld) as Hg.
  change (holds_guard t) with (holding (at_pc t)) in Hcount.
  change (holds_guard {| cb_of := cb_of t; at_pc := p' |}) with (holding p') in Hcount.
  lia.
Qed.

Lemma run_schedule_invariant (pv : py_version) (s : list (nat * oracle)) : ∀ p : pool,
  guard_invariant p → guard_invariant (run_schedule pv s p).
Proof.
  unfold run_schedule. induction s as [| pick s IH]; intros p Hinv; simpl; [exact Hinv |].
  apply IH, sched_step_invariant, Hinv.
Qed.

Lemma spawn_invariant (cbs : list callback) (h : Hook) :
  _eval_lock h = false → guard_invariant (spawn cbs h).
Proof.
  intros Hfree. unfold guard_invariant, spawn. simpl. rewrite Hfree.
  induction cbs as [| c cbs IH]; simpl; [reflexivity | exact IH].
Qed.

Lemma count_evaluating_le (ts : list thread) :
  (count evaluating ts ≤ count holds_guard ts)%nat.
Proof.
  induction ts as [| t ts IH]; simpl; [lia |].
  destruct t as [c []]; cbn [evaluating holds_guard at_pc]; lia.
Qed.

(** C9.  Whatever callbacks are in flight on a new hook and however the
    scheduler interleaves their steps, at most one thread is between taking
    and giving back the evaluation guard, so at most one is inside
    [_run_eval]: two threads that are both evaluating are the same thread,
    be they [after_run] or [end] callbacks. *)
Theorem evaluation_guard_serializes (pv : py_version) (s : list (nat * oracle))
    (cbs : list callback) (dir : string) (freq : pyval) (steps : option Z) :
  let p := run_schedule pv s (spawn cbs (EvaluationRunHook dir freq steps)) in
  count holds_guard (threads p) = Nat.b2n (_eval_lock (hook (shared p))) ∧
  (count evaluating (threads p) ≤ 1)%nat ∧
  ∀ i j t t', threads p !! i = Some t → threads p !! j = Some t' →
    evaluating t = true → evaluating t' = true → i = j.
Proof.
  intros p.
  assert (Hinv : guard_invariant p).
  { apply run_schedule_invariant, spawn_invariant. reflexivity. }
  assert (Hle : (count evaluating (threads p) ≤ 1)%nat).
  { pose proof (count_evaluating_le (threads p)) as Hev. unfold guard_invariant in Hinv.
    destruct (_eval_lock (hook (shared p))); simpl in Hinv; lia. }
  split; [exact Hinv |]. split; [exact Hle |].
  intros i j t t' Hi Hj Ht Ht'. exact (count_le_1_unique evaluating _ i j t t' Hle Hi Hj Ht Ht').
Qed.

(** ** The callbacks as threads

    A thread that runs alone ends where the callback it embodies ends. *)

Lemma after_run_solo (pv : py_version) (o : oracle) (w : world) :
  match after_run pv (o_latest o) (o_fuel o) (o_session o) w with
  | Ret _ w' => solo pv o AfterRun 12 At_update w = (Finished (Returns tt), w')
  | Exc e w' => solo pv o AfterRun 12 At_update w = (Finished (Raises e), w')
  | Timeout => ∃ w', solo pv o AfterRun 12 At_update w = (Eval_run, w')
  end.
Proof.
  destruct w as [h tr]. unfold after_run, _update_latest_checkpoint, solo, thread_step.
  run_cb.
  destruct (_checkpoint_lock h) eqn:Hc; simpl.
  - solo_case run_eval_frame; try reflexivity; eauto.
  - destruct (o_latest o) as [latest | e]; simpl.
    + solo_case run_eval_frame; try reflexivity; eauto.
    + solo_case run_eval_frame; try reflexivity; eauto.
Qed.

Lemma end_solo (pv : py_version) (o : oracle) (w : world) :
  match end_ (o_latest o) (o_fuel o) (o_session o) w with
  | Ret _ w' => solo pv o End 12 At_update w = (Finished (Returns tt), w')
  | Exc e w' => solo pv o End 12 At_update w = (Finished (Raises e), w')
  | Timeout =>
      ∃ w', solo pv o End 12 At_update w = (Eval_run, w') ∨
            solo pv o End 12 At_update w = (At_eval_acquire, w')
  end.
Proof.
  destruct w as [h tr]. unfold end_, _update_latest_checkpoint, solo, thread_step.
  run_cb.
  destruct (_checkpoint_lock h) eqn:Hc; simpl.
  - solo_case run_eval_frame; try reflexivity; eauto.
  - destruct (o_latest o) as [latest | e]; simpl.
    + solo_case run_eval_frame; try reflexivity; eauto.
    + solo_case run_eval_frame; try reflexivity; eauto.
Qed.

(** The first [after_run] sees a new checkpoint and starts to evaluate; the
    second finds the guard held and returns; [end] waits at the guard, and
    evaluates once the first has released it. *)
Example overlapping_callbacks :
  at_pc <$> threads (run_schedule Py3 sample_schedule sample_pool)
    = [Eval_run; Finished (Returns tt); At_eval_acquire] ∧
  at_pc <$> threads (run_schedule Py3
                       (sample_schedule ++ repeat (0%nat, sample_oracle_done) 2
                          ++ [(2%nat, sample_oracle)])
                       sample_pool)
    = [Finished (Returns tt); Finished (Returns tt); Eval_run].
Proof. split; vm_compute; reflexivity. Qed.

(** ** The dispatcher *)

(** With a role name and an index in the description, [dispatch] builds
    the cluster spec and starts the server before it looks at the role. *)
Lemma dispatch_with_task (x : externals) (text : string) (config cluster job idx : json)
    (args : run_args) :
  text ≠ EmptyString →
  json_loads x text = Returns config →
  py_get config "cluster" JNull = Returns cluster →
  task_field config "type" = Returns job →
  task_field config "index" = Returns idx →
  is_None job = false → is_None idx = false →
  dispatch x (Some text) args =
    match ClusterSpec x cluster with
    | Raises e => {| calls := [Call_ClusterSpec cluster]; final := Failed e |}
    | Returns _ =>
        let started := [Call_ClusterSpec cluster; Call_Server cluster job idx] in
        match Server x cluster job idx with
        | Raises e => {| calls := started; final := Failed e |}
        | Returns target =>
            if eq_str job "ps" then {| calls := started ++ [Call_join]; final := Serving |}
            else if eq_str job "master" || eq_str job "worker" then
              {| calls := started; final := Ran (run target (eq_str job "master") args) |}
            else {| calls := started; final := Returned_None |}
        end
    end.
Proof.
  intros Htext Hloads Hcluster Hjob Hidx Hj Hi. unfold dispatch.
  rewrite bool_decide_eq_false_2 by exact Htext.
  rewrite Hloads, Hcluster, Hjob, Hidx, Hj, Hi. simpl.
  destruct (ClusterSpec x cluster); [| reflexivity].
  destruct (Server x cluster job idx); reflexivity.
Qed.

(** A description without a ["task"] entry, or whose task lacks the key,
    gives [None] for the field. *)
Lemma task_field_missing (m : gmap string json) (key : string) :
  (m !! "task" = None ∨
   ∃ t : gmap string json, m !! "task" = Some (JDict t) ∧
     (t !! key = None ∨ t !! key = Some JNull)) →
  task_field (JDict m) key = Returns JNull.
Proof.
  unfold task_field, py_get.
  intros [-> | (t & -> & [-> | ->])]; [rewrite lookup_empty | |]; reflexivity.
Qed.

(** The task fields of a description can be read exactly when the
    description is well shaped. *)
Lemma task_field_readable (config : json) (key : string) :
  well_shaped config = true ↔ ∃ v, task_field config key = Returns v.
Proof.
  unfold well_shaped, task_field. destruct config as [| b | n | lit | str | l | m]; simpl;
    try (split; [discriminate | intros [v Hv]; discriminate]).
  destruct (m !! "task") as [[| b | n | lit | str | l | t] |]; simpl;
    try (split; [discriminate | intros [v Hv]; discriminate]);
    (split; [eauto | reflexivity]).
Qed.

(** A field of the task reads as [None] exactly when the task, or the key
    in it, is missing, or the key holds [null]. *)
Lemma task_field_null (m : gmap string json) (key : string) :
  task_field (JDict m) key = Returns JNull ↔
  (m !! "task" = None ∨
   ∃ t : gmap string json, m !! "task" = Some (JDict t) ∧
     (t !! key = None ∨ t !! key = Some JNull)).
Proof.
  split; [| apply task_field_missing].
  unfold task_field, py_get.
  destruct (m !! "task") as [[| b | n | lit | str | l | t] |]; try discriminate;
    [| intros _; left; reflexivity].
  intros H. right. exists t. split; [reflexivity |].
  destruct (t !! key) as [v |]; [| left; reflexivity].
  right. congruence.
Qed.

(** C6, as the code has it.  When [TF_CONFIG] is unset or empty, or when
    it can be read ([json.loads] returns a dictionary whose ["task"], if
    there is one, is a dictionary) and gives no task role name or no task
    index (the field is missing or [null]), [dispatch] starts no server and
    calls [run] with the empty target and [is_chief = True]. *)
Theorem dispatch_local_without_task (x : externals) (tf_config : option string)
    (args : run_args) :
  match tf_config with
  | None => True
  | Some text =>
      text = EmptyString ∨
      ∃ config, json_loads x text = Returns config ∧
        well_shaped config = true ∧
        (task_field config "type" = Returns JNull ∨
         task_field config "index" = Returns JNull)
  end →
  dispatch x tf_config args = {| calls := []; final := Ran (run EmptyString true args) |} ∧
  master (run EmptyString true args) = EmptyString ∧
  is_chief (run EmptyString true args) = true.
Proof.
  intros H. split; [| split; reflexivity].
  destruct tf_config as [text |]; [| reflexivity].
  unfold dispatch. case_bool_decide as Htext; [reflexivity |].
  destruct H as [-> | (config & Hloads & Hshape & Hnone)]; [done |].
  rewrite Hloads.
  destruct (proj1 (task_field_readable config "type") Hshape) as [job Hjob].
  destruct (proj1 (task_field_readable config "index") Hshape) as [idx Hidx].
  assert (∃ cluster, py_get config "cluster" JNull = Returns cluster) as [cluster ->].
  { unfold task_field in Hjob. destruct config; simpl in *; try discriminate. eauto. }
  rewrite Hjob, Hidx.
  destruct Hnone as [Hnone | Hnone].
  - rewrite Hjob in Hnone. injection Hnone as ->. reflexivity.
  - rewrite Hidx in Hnone. injection Hnone as ->. simpl.
    rewrite orb_true_r. reflexivity.
Qed.

Lemma dispatch_local_without_task_witness :
  dispatch (sample_externals "t" config_no_index) (Some "t"%string) sample_args
    = {| calls := []; final := Ran (run EmptyString true sample_args) |} ∧
  master (run EmptyString true sample_args) = EmptyString ∧
  is_chief (run EmptyString true sample_args) = true.
Proof.
  apply (dispatch_local_without_task (sample_externals "t" config_no_index)
           (Some "t"%string) sample_args).
  right. exists config_no_index.
  split; [reflexivity |]. split; [reflexivity |]. right. reflexivity.
Defined.

(** A description with a cluster topology and a task index but no role
    name runs locally. *)
Example dispatch_local_without_role :
  dispatch (sample_externals "x"
              (JDict (<[ "cluster" := sample_cluster ]>
                      {[ "task" := JDict {[ "index" := JInt 0 ]} ]})))
           (Some "x"%string) sample_args
    = {| calls := []; final := Ran (run EmptyString true sample_args) |}.
Proof. vm_compute. reflexivity. Qed.

(** C6, as stated, fails: with only the cluster topology absent, and the
    task role name and index present, [dispatch] does not run locally; it
    goes on to build a cluster spec from [None]. *)
Lemma dispatch_cluster_absent_not_local :
  match config_no_cluster with
  | JDict m => m !! "cluster" = None
  | _ => False
  end ∧
  dispatch (sample_externals text_no_cluster config_no_cluster)
           (Some text_no_cluster) sample_args
    = {| calls := [Call_ClusterSpec JNull]; final := Failed TypeError |} ∧
  dispatch (sample_externals text_no_cluster config_no_cluster)
           (Some text_no_cluster) sample_args
    ≠ {| calls := []; final := Ran (run EmptyString true sample_args) |}.
Proof.
  split; [reflexivity |].
  assert (E : dispatch (sample_externals text_no_cluster config_no_cluster)
                (Some text_no_cluster) sample_args
              = {| calls := [Call_ClusterSpec JNull]; final := Failed TypeError |})
    by (vm_compute; reflexivity).
  split; [exact E |]. rewrite E. discriminate.
Qed.

(** C4, as the code has it.  For a role name that is present and is none of
    ["ps"], ["master"], ["worker"], [dispatch] raises no error of its own:
    it builds the cluster spec and starts the server for that role, fails
    only where one of the two raises, and otherwise returns [None] without
    running any training. *)
Theorem dispatch_unknown_role (x : externals) (text : string)
    (config cluster job idx : json) (args : run_args) :
  text ≠ EmptyString →
  json_loads x text = Returns config →
  py_get config "cluster" JNull = Returns cluster →
  task_field config "type" = Returns job →
  task_field config "index" = Returns idx →
  is_None job = false → is_None idx = false →
  eq_str job "ps" = false → eq_str job "master" = false → eq_str job "worker" = false →
  dispatch x (Some text) args =
    match ClusterSpec x cluster with
    | Raises e => {| calls := [Call_ClusterSpec cluster]; final := Failed e |}
    | Returns _ =>
        {| calls := [Call_ClusterSpec cluster; Call_Server cluster job idx];
           final := match Server x cluster job idx with
                    | Raises e => Failed e
                    | Returns _ => Returned_None
                    end |}
    end ∧
  calls (dispatch x (Some text) args) ≠ [] ∧
  ∀ s, final (dispatch x (Some text) args) ≠ Ran s.
Proof.
  intros Htext Hloads Hcluster Hjob Hidx Hj Hi Hps Hmaster Hworker.
  rewrite (dispatch_with_task x text config cluster job idx args) by assumption.
  rewrite Hps, Hmaster, Hworker. simpl.
  destruct (ClusterSpec x cluster); [| done].
  destruct (Server x cluster job idx); done.
Qed.

Lemma dispatch_unknown_role_witness :
  dispatch (sample_externals text_evaluator config_evaluator) (Some text_evaluator)
           sample_args
    = {| calls := [Call_ClusterSpec (JDict {[ "evaluator" := JList [JStr "localhost:2222"] ]});
                   Call_Server (JDict {[ "evaluator" := JList [JStr "localhost:2222"] ]})
                     (JStr "evaluator") (JInt 0)];
         final := Returned_None |} ∧
  calls (dispatch (sample_externals text_evaluator config_evaluator) (Some text_evaluator)
           sample_args) ≠ [] ∧
  ∀ s, final (dispatch (sample_externals text_evaluator config_evaluator)
                (Some text_evaluator) sample_args) ≠ Ran s.
Proof.
  apply (dispatch_unknown_role (sample_externals text_evaluator config_evaluator)
           text_evaluator config_evaluator
           (JDict {[ "evaluator" := JList [JStr "localhost:2222"] ]})
           (JStr "evaluator") (JInt 0) sample_args);
    first [reflexivity | discriminate].
Defined.

(** C4, as stated, fails: for the role name ["evaluator"] the dispatcher
    starts a server and then returns [None]; nothing is raised. *)
Lemma dispatch_unknown_role_not_rejected :
  task_field config_evaluator "type" = Returns (JStr "evaluator") ∧
  final (dispatch (sample_externals text_evaluator config_evaluator)
           (Some text_evaluator) sample_args) = Returned_None ∧
  server_started (dispatch (sample_externals text_evaluator config_evaluator)
                    (Some text_evaluator) sample_args) = true ∧
  failed_before_server (dispatch (sample_externals text_evaluator config_evaluator)
                          (Some text_evaluator) sample_args) = false.
Proof. repeat split; vm_compute; reflexivity. Qed.

(** ** The hooks of the training session *)

(** C8.  [run] passes the evaluation hook to the training session exactly
    when [is_chief] is true, and then it is the only hook.  Through
    [dispatch], the task type ["worker"] gives [is_chief = False] and an
    empty hook list, the task type ["master"] gives [is_chief = True] and
    the list holding the evaluation hook. *)
Theorem evaluation_hook_only_on_chief (x : externals) (text role target : string)
    (config cluster idx : json) (chief : bool) (args : run_args) :
  hooks (run target chief args) =
    (if chief
     then [EvaluationRunHook (job_dir args) (eval_frequency args) (eval_steps args)]
     else []) ∧
  (hooks (run target chief args) ≠ [] ↔ chief = true) ∧
  (text ≠ EmptyString →
   json_loads x text = Returns config →
   py_get config "cluster" JNull = Returns cluster →
   task_field config "type" = Returns (JStr role) →
   task_field config "index" = Returns idx →
   is_None idx = false →
   ClusterSpec x cluster = Returns tt →
   Server x cluster (JStr role) idx = Returns target →
   (role = "worker"%string →
      ∃ s, final (dispatch x (Some text) args) = Ran s ∧ master s = target ∧
        is_chief s = false ∧ hooks s = []) ∧
   (role = "master"%string →
      ∃ s, final (dispatch x (Some text) args) = Ran s ∧ master s = target ∧
        is_chief s = true ∧
        hooks s = [EvaluationRunHook (job_dir args) (eval_frequency args) (eval_steps args)])).
Proof.
  split; [destruct chief; reflexivity |].
  split; [destruct chief; simpl; split; congruence |].
  intros Htext Hloads Hcluster Hjob Hidx Hi Hspec Hserver.
  rewrite (dispatch_with_task x text config cluster (JStr role) idx args)
    by (assumption || reflexivity).
  rewrite Hspec, Hserver.
  split; intros ->; simpl; eexists; (split; [reflexivity |]); done.
Qed.

Lemma evaluation_hook_only_on_chief_witness :
  (∃ s, final (dispatch (sample_externals "w" (config_of_task "worker" 2))
                 (Some "w"%string) sample_args) = Ran s ∧
     master s = "grpc://localhost:2222"%string ∧ is_chief s = false ∧ hooks s = []) ∧
  (∃ s, final (dispatch (sample_externals "m" (config_of_task "master" 0))
                 (Some "m"%string) sample_args) = Ran s ∧
     master s = "grpc://localhost:2222"%string ∧ is_chief s = true ∧
     hooks s = [EvaluationRunHook "job" (PyInt 1) (Some 50)]).
Proof.
  split.
  - apply (proj2 (proj2 (evaluation_hook_only_on_chief
             (sample_externals "w" (config_of_task "worker" 2)) "w" "worker"
             "grpc://localhost:2222" (config_of_task "worker" 2) sample_cluster (JInt 2)
             false sample_args)));
      first [reflexivity | discriminate].
  - apply (proj2 (proj2 (evaluation_hook_only_on_chief
             (sample_externals "m" (config_of_task "master" 0)) "m" "master"
             "grpc://localhost:2222" (config_of_task "master" 0) sample_cluster (JInt 0)
             true sample_args)));
      first [reflexivity | discriminate].
Defined.

(** ** The [--eval-frequency] flag *)

(** C5, on the code.  [--eval-frequency] declares no [type]: left out it
    is the [int] 1, supplied it stays the [str] of the command line, where
    the sibling [--eval-steps] is converted by [int].  Against a [str] the
    comparison of [after_run] is no integer comparison: it never holds, in
    Python 2 as [False] and in Python 3 as a [TypeError]. *)
Theorem eval_frequency_stays_a_string (py_int : string → outcome Z)
    (arg_string dir : string) (steps : option Z) (pv : py_version) (n : Z) :
  parse_flag py_int arg_eval_frequency None = Returns (PyInt 1) ∧
  parse_flag py_int arg_eval_frequency (Some arg_string) = Returns (PyStr arg_string) ∧
  parse_flag py_int arg_eval_steps (Some arg_string) =
    match py_int arg_string with
    | Returns k => Returns (PyInt k)
    | Raises e => Raises (conversion_error e)
    end ∧
  py_int_gt pv n (PyStr arg_string) =
    match pv with
    | Py2 => Returns false
    | Py3 => Raises TypeError
    end ∧
  due pv (set_checkpoints_since_eval n
            (EvaluationRunHook dir (PyStr arg_string) steps)) = false.
Proof.
  split; [reflexivity |]. split; [reflexivity |]. split; [reflexivity |].
  split; [reflexivity |]. unfold due. simpl. destruct pv; reflexivity.
Qed.

(** [--eval-frequency 3] with five new checkpoints: no evaluation, where
    the integer 3 gives one. *)
Example eval_frequency_3_on_the_command_line :
  (∃ w', after_run Py2 (Returns (Some "ckpt-5")) 10 (unbounded_session 7)
           (world_five_checkpoints (PyStr "3")) = Ret tt w' ∧
     run_eval_calls (trace w') = 0%nat) ∧
  (∃ w', after_run Py3 (Returns (Some "ckpt-5")) 10 (unbounded_session 7)
           (world_five_checkpoints (PyStr "3")) = Exc TypeError w' ∧
     run_eval_calls (trace w') = 0%nat) ∧
  (∃ w', after_run Py3 (Returns (Some "ckpt-5")) 10 (unbounded_session 7)
           (world_five_checkpoints (PyInt 3)) = Ret tt w' ∧
     run_eval_calls (trace w') = 1%nat).
Proof. repeat split; eexists; (split; [vm_compute; reflexivity | reflexivity]). Qed.

(** * Further properties of the code *)

(** ** The training loop *)

Lemma train_loop_counts (s0 N : Z) (n : nat) : ∀ (i fuel : nat) (ts : train_session),
  (∀ j, train_should_stop ts j = false) →
  (∀ j, train_run ts j = Returns (s0 + Z.of_nat j + 1)) →
  Z.of_nat n = Z.max 0 (N - (s0 + Z.of_nat i)) →
  (n < fuel)%nat →
  train_loop fuel (Some N) ts i (s0 + Z.of_nat i) =
    Some (Trained_until (i + n) (s0 + Z.of_nat i + Z.of_nat n)).
Proof.
  induction n as [| n IH]; intros i fuel ts Hstop Hrun Hn Hfuel;
    (destruct fuel as [| fuel]; [lia |]); simpl.
  - replace (s0 + Z.of_nat i <? N) with false by (symmetry; apply Z.ltb_ge; lia).
    simpl. do 2 f_equal; lia.
  - replace (s0 + Z.of_nat i <? N) with true by (symmetry; apply Z.ltb_lt; lia).
    rewrite Hstop, Hrun. simpl.
    replace (s0 + Z.of_nat i + 1) with (s0 + Z.of_nat (S i)) by lia.
    rewrite (IH (S i) fuel ts Hstop Hrun) by lia. do 2 f_equal; lia.
Qed.

(** X1.  On a single worker, where every run adds one to the global step
    and nothing asks to stop, the loop of [run] with [train_steps = N] that
    starts at step [s0] (a restart from a checkpoint) performs exactly the
    [N - s0] remaining runs and ends at step [N]; started at or beyond [N]
    it performs none. *)
Theorem train_loop_resumes (ts : train_session) (N : Z) (fuel : nat) :
  (∀ i, train_should_stop ts i = false) →
  (∀ i, train_run ts i = Returns (initial_step ts + Z.of_nat i + 1)) →
  (Z.to_nat (N - initial_step ts) < fuel)%nat →
  train fuel (Some N) ts =
    Some (Trained_until (Z.to_nat (N - initial_step ts)) (Z.max (initial_step ts) N)).
Proof.
  intros Hstop Hrun Hfuel. unfold train.
  pose proof (train_loop_counts (initial_step ts) N (Z.to_nat (N - initial_step ts))
                0 fuel ts Hstop Hrun) as H.
  simpl in H. rewrite Z.add_0_r in H. rewrite H by lia. do 2 f_equal. lia.
Qed.

Lemma train_loop_resumes_witness :
  train 100 (Some 100) (single_worker 40) = Some (Trained_until 60 (Z.max 40 100)) ∧
  train 100 (Some 100) (single_worker 250) = Some (Trained_until 0 (Z.max 250 100)).
Proof.
  split.
  - apply (train_loop_resumes (single_worker 40) 100 100);
      [intros i; reflexivity | intros i; reflexivity | simpl; lia].
  - apply (train_loop_resumes (single_worker 250) 100 100);
      [intros i; reflexivity | intros i; reflexivity | simpl; lia].
Defined.

Lemma train_loop_exit_from (steps : option Z) (ts : train_session) (fuel : nat) :
  ∀ (i : nat) (step : Z) (ex : train_exit),
  step_before ts i = Returns step →
  train_loop fuel steps ts i step = Some ex →
  match ex with
  | Trained_until k s =>
      (i ≤ k)%nat ∧ step_before ts k = Returns s ∧
      (steps_left steps s = false ∨ train_should_stop ts k = true) ∧
      ∀ j, (i ≤ j < k)%nat →
        ∃ sj, step_before ts j = Returns sj ∧ steps_left steps sj = true ∧
          train_should_stop ts j = false
  | Train_raised k e =>
      (i ≤ k)%nat ∧ train_run ts k = Raises e ∧
      ∀ j, (i ≤ j ≤ k)%nat →
        ∃ sj, step_before ts j = Returns sj ∧ steps_left steps sj = true ∧
          train_should_stop ts j = false
  end.
Proof.
  induction fuel as [| fuel IH]; intros i step ex Hbefore Hrun; [discriminate |].
  simpl in Hrun.
  destruct (steps_left steps step) eqn:Hleft; simpl in Hrun.
  - destruct (train_should_stop ts i) eqn:Hstop; simpl in Hrun.
    + injection Hrun as <-. split; [lia |]. split; [exact Hbefore |].
      split; [right; exact Hstop |]. intros j Hj. lia.
    + destruct (train_run ts i) as [step' | e] eqn:Hi.
      * specialize (IH (S i) step' ex Hi Hrun).
        destruct ex as [k s | k e].
        -- destruct IH as (Hle & Hk & Hend & Hbelow).
           split; [lia |]. split; [exact Hk |]. split; [exact Hend |].
           intros j Hj. destruct (decide (j = i)) as [-> | Hne]; [eauto |].
           apply Hbelow. lia.
        -- destruct IH as (Hle & Hk & Hbelow).
           split; [lia |]. split; [exact Hk |].
           intros j Hj. destruct (decide (j = i)) as [-> | Hne]; [eauto |].
           apply Hbelow. lia.
      * injection Hrun as <-. split; [lia |]. split; [exact Hi |].
        intros j Hj. assert (j = i) as -> by lia. eauto.
  - injection Hrun as <-. split; [lia |]. split; [exact Hbefore |].
    split; [left; exact Hleft |]. intros j Hj. lia.
Qed.

(** X2.  However the global step moves (other workers of the cluster
    advance it too): when the loop of [run] is left by its condition, the
    global step read last has reached [train_steps] or a stop was requested
    at that check, and at every earlier check the step read was below
    [train_steps] and no stop was requested; when it is left by an
    exception, that is the exception of the last run. *)
Theorem train_loop_exit (fuel : nat) (steps : option Z) (ts : train_session)
    (ex : train_exit) :
  train fuel steps ts = Some ex →
  match ex with
  | Trained_until k s =>
      step_before ts k = Returns s ∧
      (steps_left steps s = false ∨ train_should_stop ts k = true) ∧
      ∀ j, (j < k)%nat →
        ∃ sj, step_before ts j = Returns sj ∧ steps_left steps sj = true ∧
          train_should_stop ts j = false
  | Train_raised k e =>
      train_run ts k = Raises e ∧
      ∀ j, (j ≤ k)%nat →
        ∃ sj, step_before ts j = Returns sj ∧ steps_left steps sj = true ∧
          train_should_stop ts j = false
  end.
Proof.
  intros Hrun.
  pose proof (train_loop_exit_from steps ts fuel 0 (initial_step ts) ex eq_refl Hrun) as H.
  destruct ex as [k s | k e].
  - destruct H as (_ & Hk & Hend & Hbelow). split; [exact Hk |]. split; [exact Hend |].
    intros j Hj. apply Hbelow. lia.
  - destruct H as (_ & Hk & Hbelow). split; [exact Hk |].
    intros j Hj. apply Hbelow. lia.
Qed.

Lemma train_loop_exit_witness :
  step_before (stopped_before 7 40) 7 = Returns 47 ∧
  (steps_left (Some 100) 47 = false ∨ train_should_stop (stopped_before 7 40) 7 = true) ∧
  ∀ j, (j < 7)%nat →
    ∃ sj, step_before (stopped_before 7 40) j = Returns sj ∧
      steps_left (Some 100) sj = true ∧ train_should_stop (stopped_before 7 40) j = false.
Proof.
  apply (train_loop_exit 20 (Some 100) (stopped_before 7 40) (Trained_until 7 47)).
  vm_compute. reflexivity.
Defined.

Lemma train_loop_reaches (steps : option Z) (ts : train_session) (n : nat) :
  ∀ (i fuel : nat) (step s : Z),
  step_before ts i = Returns step →
  (∀ j, (i ≤ j < i + n)%nat →
     ∃ sj, step_before ts j = Returns sj ∧ steps_left steps sj = true ∧
       train_should_stop ts j = false) →
  step_before ts (i + n) = Returns s →
  (steps_left steps s = false ∨ train_should_stop ts (i + n) = true) →
  (n < fuel)%nat →
  train_loop fuel steps ts i step = Some (Trained_until (i + n) s).
Proof.
  induction n as [| n IH]; intros i fuel step s Hbefore Hgo Hs Hend Hfuel;
    (destruct fuel as [| fuel]; [lia |]); simpl.
  - rewrite Nat.add_0_r in *. rewrite Hbefore in Hs. injection Hs as ->.
    destruct Hend as [-> | ->]; [reflexivity |]. rewrite andb_false_r. reflexivity.
  - destruct (Hgo i) as (si & Hsi & Hleft & Hstop); [lia |].
    rewrite Hbefore in Hsi. injection Hsi as <-. rewrite Hleft, Hstop. simpl.
    destruct (train_run ts i) as [step' | e] eqn:Hi.
    + replace (i + S n)%nat with (S i + n)%nat in * by lia.
      apply IH; try assumption; [| lia]. intros j Hj. apply Hgo. lia.
    + destruct n as [| n].
      * replace (i + 1)%nat with (S i) in Hs by lia. simpl in Hs. congruence.
      * destruct (Hgo (S i)) as (sj & Hsj & _); [lia |]. simpl in Hsj. congruence.
Qed.

Lemma train_loop_diverges (ts : train_session) (fuel : nat) : ∀ (i : nat) (step : Z),
  (∀ j, train_should_stop ts j = false ∧ ∃ sj, train_run ts j = Returns sj) →
  train_loop fuel None ts i step = None.
Proof.
  induction fuel as [| fuel IH]; intros i step Hgo; [reflexivity |]. simpl.
  destruct (Hgo i) as (-> & sj & ->). simpl. apply IH. exact Hgo.
Qed.

(** X3.  With [train_steps] unspecified the loop of [run] ends at the
    first check at which a stop is requested, after as many runs as there
    were checks before it, and while no stop is requested it does not
    end. *)
Theorem train_loop_without_budget (ts : train_session) (k fuel : nat) (s : Z) :
  ((∀ j, (j < k)%nat →
      train_should_stop ts j = false ∧ ∃ sj, train_run ts j = Returns sj) →
   train_should_stop ts k = true → step_before ts k = Returns s → (k < fuel)%nat →
   train fuel None ts = Some (Trained_until k s)) ∧
  ((∀ j, train_should_stop ts j = false ∧ ∃ sj, train_run ts j = Returns sj) →
   train fuel None ts = None).
Proof.
  split.
  - intros Hgo Hstop Hs Hfuel. unfold train.
    apply (train_loop_reaches None ts k 0 fuel (initial_step ts) s); simpl; auto.
    intros j Hj. destruct (Hgo j) as (Hj1 & sj & Hj2); [lia |].
    destruct j as [| j]; simpl.
    + eauto.
    + destruct (Hgo j) as (_ & sj' & Hj'); [lia |]. eauto.
  - intros Hgo. apply train_loop_diverges. exact Hgo.
Qed.

Lemma stopped_before_goes_on (k : nat) (s0 : Z) (j : nat) :
  (j < k)%nat →
  train_should_stop (stopped_before k s0) j = false ∧
  ∃ sj, train_run (stopped_before k s0) j = Returns sj.
Proof.
  intros Hj. simpl. split; [apply bool_decide_eq_false_2; lia | eauto].
Defined.

Lemma train_loop_without_budget_witness :
  train 20 None (stopped_before 7 40) = Some (Trained_until 7 47) ∧
  train 20 None (single_worker 40) = None.
Proof.
  split.
  - apply (proj1 (train_loop_without_budget (stopped_before 7 40) 7 20 47)).
    + apply stopped_before_goes_on.
    + reflexivity.
    + reflexivity.
    + lia.
  - apply (proj2 (train_loop_without_budget (single_worker 40) 7 20 47)).
    intros j. split; [reflexivity | simpl; eauto].
Defined.

(** ** More on the evaluation pass *)

Lemma eval_loop_progress_log (steps : option Z) (es : eval_session) (fuel : nat) :
  ∀ (i : nat) summ logged ex,
  eval_loop fuel steps es i summ logged = Some ex →
  progress ex = logged ++ List.filter logs_progress (seq i (iterations ex - i)).
Proof.
  induction fuel as [| fuel IH]; intros i summ logged ex Hrun; [discriminate |].
  simpl in Hrun.
  destruct (negb (should_stop es i) && within_budget steps i).
  - destruct (session_run es i) as [s | e].
    + pose proof (eval_loop_progress _ _ _ _ _ _ _ Hrun) as (Hle & _).
      rewrite (IH _ _ _ _ Hrun).
      replace (iterations ex - i)%nat with (S (iterations ex - S i)) by lia.
      simpl. unfold logs_progress at 2.
      destruct (Z.of_nat i `mod` 100 =? 0); [rewrite <- app_assoc |]; reflexivity.
    + injection Hrun as <-. simpl. rewrite Nat.sub_diag, app_nil_r. reflexivity.
  - injection Hrun as <-. simpl. rewrite Nat.sub_diag, app_nil_r. reflexivity.
Qed.

(** X4.  An evaluation loop that completes [k] iterations has logged a
    progress line for exactly the iterations 0, 100, 200, ... below [k], in
    this order. *)
Theorem eval_loop_logs_every_100 (fuel : nat) (steps : option Z) (es : eval_session)
    (ex : loop_exit) :
  eval_loop fuel steps es 0 None [] = Some ex →
  progress ex = List.filter logs_progress (seq 0 (iterations ex)).
Proof.
  intros Hrun. rewrite (eval_loop_progress_log _ _ _ _ _ _ _ Hrun).
  rewrite Nat.sub_0_r. reflexivity.
Qed.

Lemma eval_loop_logs_every_100_witness :
  progress {| iterations := 250; summaries := Some "summary"%string;
              progress := [0; 100; 200]%nat; coord_exc := None |}
  = List.filter logs_progress
      (seq 0 (iterations {| iterations := 250; summaries := Some "summary"%string;
                            progress := [0; 100; 200]%nat; coord_exc := None |})).
Proof.
  apply (eval_loop_logs_every_100 300 (Some 250) (unbounded_session 7)).
  vm_compute. reflexivity.
Defined.

Lemma eval_loop_last_summary (steps : option Z) (es : eval_session) (fuel : nat) :
  ∀ (i : nat) summ logged ex,
  eval_loop fuel steps es i summ logged = Some ex →
  iterations ex ≠ i →
  ∃ s, session_run es (iterations ex - 1) = Returns s ∧ summaries ex = Some s.
Proof.
  induction fuel as [| fuel IH]; intros i summ logged ex Hrun Hne; [discriminate |].
  simpl in Hrun.
  destruct (negb (should_stop es i) && within_budget steps i).
  - destruct (session_run es i) as [s | e] eqn:Hi.
    + destruct (decide (iterations ex = S i)) as [E | E].
      * pose proof (eval_loop_progress _ _ _ _ _ _ _ Hrun) as (_ & Heq & _).
        exists s. rewrite E. simpl. rewrite Nat.sub_0_r. split; [exact Hi | auto].
      * apply (IH _ _ _ _ Hrun E).
    + injection Hrun as <-. simpl in Hne. congruence.
  - injection Hrun as <-. simpl in Hne. congruence.
Qed.

(** X5.  A pass that completes at least one iteration writes one record:
    the summary of its last completed iteration alone (the summaries of the
    earlier iterations are dropped), tagged with the global step of the
    restored checkpoint; the record is flushed, behind the records flushed
    before. *)
Theorem run_eval_writes_last_summary (fuel : nat) (es : eval_session) (w : world)
    (step : Z) (ex : loop_exit) (k : nat) :
  restore es (_latest_checkpoint (hook w)) = Returns step →
  eval_loop fuel (_eval_steps (hook w)) es 0 None [] = Some ex →
  iterations ex = S k →
  ∃ s w', session_run es k = Returns s ∧ _run_eval fuel es w = Ret tt w' ∧
    fw_flushed (_file_writer (hook w')) =
      fw_flushed (_file_writer (hook w)) ++ fw_pending (_file_writer (hook w))
        ++ [(s, step)] ∧
    fw_pending (_file_writer (hook w')) = [].
Proof.
  intros Hrestore Hloop Hk.
  destruct (eval_loop_last_summary _ _ _ _ _ _ _ Hloop) as (s & Hs & Hsome); [lia |].
  destruct (run_eval_writes fuel es w step ex Hrestore Hloop) as (s' & Hs' & Hrun); [lia |].
  rewrite Hsome in Hs'. injection Hs' as <-.
  rewrite Hk in Hs. simpl in Hs. rewrite Nat.sub_0_r in Hs.
  eexists s, _. split; [exact Hs |]. split; [exact Hrun |]. simpl. split; reflexivity.
Qed.

Lemma run_eval_writes_last_summary_witness :
  ∃ s w', session_run (exhausted_after 2 7) 1 = Returns s ∧
    _run_eval 10 (exhausted_after 2 7) world0 = Ret tt w' ∧
    fw_flushed (_file_writer (hook w')) =
      fw_flushed (_file_writer (hook world0)) ++ fw_pending (_file_writer (hook world0))
        ++ [(s, 7)] ∧
    fw_pending (_file_writer (hook w')) = [].
Proof.
  apply (run_eval_writes_last_summary 10 (exhausted_after 2 7) world0 7
           {| iterations := 2; summaries := Some "summary"%string;
              progress := [0%nat]; coord_exc := None |} 1);
    reflexivity.
Defined.

Lemma within_budget_below (steps : option Z) (k j : nat) :
  within_budget steps k = true → (j ≤ k)%nat → within_budget steps j = true.
Proof.
  destruct steps as [n |]; simpl; [| done].
  intros Hk Hj. apply Z.ltb_lt in Hk. apply Z.ltb_lt. lia.
Qed.

(** X6.  An exception that [session.run] raises in an iteration after the
    first never leaves the pass, whether it is a clean stop or not: the
    loop ends there, and the pass returns normally after it has written one
    record and flushed it, the summary of the iteration before, tagged with
    the global step of the restored checkpoint, and changed nothing else of
    the hook; the coordinator keeps an exception that is no clean stop, and
    nothing raises it again. *)
Theorem run_eval_swallows_loop_errors (fuel : nat) (es : eval_session) (w : world)
    (step : Z) (k : nat) (e : exn) :
  restore es (_latest_checkpoint (hook w)) = Returns step →
  (∀ i, (i < k)%nat → yields es i = true) →
  should_stop es k = false →
  within_budget (_eval_steps (hook w)) k = true →
  session_run es k = Raises e →
  (0 < k)%nat → (k < fuel)%nat →
  ∃ ex s w', eval_loop fuel (_eval_steps (hook w)) es 0 None [] = Some ex ∧
    iterations ex = k ∧
    coord_exc ex = (if clean_stop e then None else Some e) ∧
    session_run es (k - 1) = Returns s ∧
    _run_eval fuel es w = Ret tt w' ∧
    fw_flushed (_file_writer (hook w')) =
      fw_flushed (_file_writer (hook w)) ++ fw_pending (_file_writer (hook w))
        ++ [(s, step)] ∧
    fw_pending (_file_writer (hook w')) = [] ∧
    same_outside_file_writer (hook w) (hook w') ∧
    trace w' = trace w ++ [Ev_run_eval (_latest_checkpoint (hook w))].
Proof.
  intros Hrestore Hyield Hstop Hbudget Hraise Hpos Hfuel.
  destruct (eval_loop_reaches (_eval_steps (hook w)) es k 0 fuel None [])
    as (ex & Hloop & Hit & Hexc & _); simpl.
  - intros j Hj. unfold stops_here. rewrite Hyield by lia.
    rewrite (within_budget_below _ k j Hbudget) by lia. reflexivity.
  - unfold stops_here, yields. rewrite Hraise, andb_false_r. reflexivity.
  - exact Hfuel.
  - simpl in Hit, Hexc.
    destruct (eval_loop_last_summary _ _ _ _ _ _ _ Hloop) as (s & Hs & Hsome); [lia |].
    destruct (run_eval_writes fuel es w step ex Hrestore Hloop) as (s' & Hs' & Hrun); [lia |].
    rewrite Hsome in Hs'. injection Hs' as <-. rewrite Hit in Hs.
    eexists ex, s, _. split; [exact Hloop |]. split; [exact Hit |]. split.
    { rewrite Hexc. unfold exit_exc. rewrite Hstop, Hbudget, Hraise. reflexivity. }
    split; [exact Hs |]. split; [exact Hrun |]. simpl.
    split; [reflexivity |]. split; [reflexivity |].
    split; [unfold same_outside_file_writer; simpl; done | reflexivity].
Qed.

Lemma run_eval_swallows_loop_errors_witness :
  ∃ ex s w', eval_loop 10 (_eval_steps (hook world0)) (fails_in_third 7) 0 None [] = Some ex ∧
    iterations ex = 2%nat ∧
    coord_exc ex = (if clean_stop (ExternalError "InvalidArgumentError") then None
                    else Some (ExternalError "InvalidArgumentError")) ∧
    session_run (fails_in_third 7) (2 - 1) = Returns s ∧
    _run_eval 10 (fails_in_third 7) world0 = Ret tt w' ∧
    fw_flushed (_file_writer (hook w')) =
      fw_flushed (_file_writer (hook world0)) ++ fw_pending (_file_writer (hook world0))
        ++ [(s, 7)] ∧
    fw_pending (_file_writer (hook w')) = [] ∧
    same_outside_file_writer (hook world0) (hook w') ∧
    trace w' = trace world0 ++ [Ev_run_eval (_latest_checkpoint (hook world0))].
Proof.
  apply (run_eval_swallows_loop_errors 10 (fails_in_third 7) world0 7 2
           (ExternalError "InvalidArgumentError")); try reflexivity; try lia.
  intros i Hi. unfold yields, fails_in_third. simpl.
  destruct (Nat.ltb_spec i 2); [reflexivity | lia].
Defined.

(** X7.  When the checkpoint cannot be restored (as on a directory that
    holds no checkpoint yet, where [end] hands [None] to the saver), [end]
    raises the error of the restore; it has stored the checkpoint it
    observed, written nothing, and released both guards. *)
Theorem end_restore_failure (c : option ckpt) (fuel : nat) (es : eval_session)
    (w : world) (e : exn) :
  _checkpoint_lock (hook w) = false →
  _eval_lock (hook w) = false →
  restore es c = Raises e →
  ∃ w', end_ (Returns c) fuel es w = Exc e w' ∧
    _latest_checkpoint (hook w') = c ∧
    _file_writer (hook w') = _file_writer (hook w) ∧
    _eval_lock (hook w') = false ∧ _checkpoint_lock (hook w') = false ∧
    run_eval_calls (trace w') = S (run_eval_calls (trace w)) ∧
    last (trace w') = Some (Ev_release EvalLock).
Proof.
  intros Hc He Hrestore. destruct w as [h tr]. simpl in *.
  unfold end_. run_py. rewrite Hc. simpl.
  destruct (bool_decide (c = _latest_checkpoint h)) eqn:E; simpl; rewrite He; simpl.
  - apply bool_decide_eq_true in E. rewrite <- E, Hrestore. simpl.
    eexists. split; [reflexivity |]. simpl.
    rewrite !run_eval_calls_app, !last_app. cbn. repeat split; try done; lia.
  - rewrite Hrestore. simpl.
    eexists. split; [reflexivity |]. simpl.
    rewrite !run_eval_calls_app, !last_app. cbn. repeat split; try done; lia.
Qed.

Lemma end_restore_failure_witness :
  ∃ w', end_ (Returns None) 10 (needs_checkpoint 7) world0 = Exc ValueError w' ∧
    _latest_checkpoint (hook w') = None ∧
    _file_writer (hook w') = _file_writer (hook world0) ∧
    _eval_lock (hook w') = false ∧ _checkpoint_lock (hook w') = false ∧
    run_eval_calls (trace w') = S (run_eval_calls (trace world0)) ∧
    last (trace w') = Some (Ev_release EvalLock).
Proof.
  apply (end_restore_failure None 10 (needs_checkpoint 7) world0 ValueError); reflexivity.
Defined.

(** ** The cadence of the periodic evaluation *)

(** A pass with a positive iteration budget on a pipeline that keeps
    yielding, and a restore that succeeds, returns. *)
Lemma run_eval_returns (fuel : nat) (es : eval_session) (w : world) (N : Z) :
  _eval_steps (hook w) = Some N → 0 < N →
  (∀ c, ∃ step, restore es c = Returns step) →
  (∀ i, yields es i = true) →
  (Z.to_nat N < fuel)%nat →
  ∃ s step,
    _run_eval fuel es w =
      Ret tt {| hook := set_file_writer
                          (flush (add_summary s step (_file_writer (hook w)))) (hook w);
                trace := trace w ++ [Ev_run_eval (_latest_checkpoint (hook w))] |}.
Proof.
  intros Hsteps HN Hrestore Hyield Hfuel.
  destruct (Hrestore (_latest_checkpoint (hook w))) as [step Hstep].
  destruct (eval_loop_reaches (Some N) es (Z.to_nat N) 0 fuel None [])
    as (ex & Hloop & Hit & _); simpl.
  - intros j Hj. unfold stops_here. rewrite Hyield. simpl.
    apply negb_false_iff, Z.ltb_lt. lia.
  - unfold stops_here. rewrite Hyield. simpl. apply negb_true_iff, Z.ltb_ge. lia.
  - exact Hfuel.
  - rewrite <- Hsteps in Hloop.
    destruct (run_eval_writes fuel es w step ex Hstep Hloop) as (s & _ & Hrun).
    + simpl in Hit. lia.
    + exists s, step. exact Hrun.
Qed.

(** One [after_run] that sees a new checkpoint, both guards free. *)
Lemma after_run_new_checkpoint (pv : py_version) (fuel : nat) (es : eval_session)
    (w : world) (o : option ckpt) (k N : Z) :
  _checkpoint_lock (hook w) = false → _eval_lock (hook w) = false →
  _eval_every (hook w) = PyInt k →
  _eval_steps (hook w) = Some N → 0 < N →
  (∀ c, ∃ step, restore es c = Returns step) →
  (∀ i, yields es i = true) →
  (Z.to_nat N < fuel)%nat →
  o ≠ _latest_checkpoint (hook w) →
  ∃ w', after_run pv (Returns o) fuel es w = Ret tt w' ∧
    _checkpoint_lock (hook w') = false ∧ _eval_lock (hook w') = false ∧
    _eval_every (hook w') = PyInt k ∧ _eval_steps (hook w') = Some N ∧
    _latest_checkpoint (hook w') = o ∧
    _checkpoints_since_eval (hook w') =
      (if k <? _checkpoints_since_eval (hook w) + 1 then 0
       else _checkpoints_since_eval (hook w) + 1) ∧
    run_eval_calls (trace w') =
      (run_eval_calls (trace w)
       + (if (k <? _checkpoints_since_eval (hook w) + 1)%Z then 1 else 0))%nat.
Proof.
  intros Hc He Hevery Hsteps HN Hrestore Hyield Hfuel Hnew.
  destruct w as [h tr]. simpl in *.
  unfold after_run, _update_latest_checkpoint. run_cb.
  rewrite Hc. simpl. rewrite bool_decide_eq_false_2 by exact Hnew. simpl.
  rewrite He. simpl. rewrite Hevery. simpl.
  destruct (k <? _checkpoints_since_eval h + 1).
  - match goal with
    | |- context [_run_eval fuel es ?W] =>
        destruct (run_eval_returns fuel es W N) as (s & step & ->); simpl; auto
    end.
    eexists. split; [reflexivity |]. simpl.
    rewrite !run_eval_calls_app. cbn. repeat split; try done; lia.
  - eexists. split; [reflexivity |]. simpl.
    rewrite !run_eval_calls_app. cbn. repeat split; try done; lia.
Qed.

(** X8.  On a hook with an integer [eval_frequency = k], 0 or more, whose
    counter is below or at [k], a run of [after_run] callbacks that each
    see a new checkpoint evaluates once every [k + 1] checkpoints: after
    [n] of them the passes made are [(c + n) / (k + 1)] and the counter is
    [(c + n) mod (k + 1)], for the counter [c] at the start.  (With the
    default [k = 1]: every second checkpoint.) *)
Theorem after_runs_cadence (pv : py_version) (fuel : nat) (es : eval_session)
    (k N : Z) (obs : list (option ckpt)) (w : world) :
  _checkpoint_lock (hook w) = false → _eval_lock (hook w) = false →
  _eval_every (hook w) = PyInt k →
  0 ≤ _checkpoints_since_eval (hook w) ≤ k →
  _eval_steps (hook w) = Some N → 0 < N →
  (∀ c, ∃ step, restore es c = Returns step) →
  (∀ i, yields es i = true) →
  (Z.to_nat N < fuel)%nat →
  changes (_latest_checkpoint (hook w)) obs = Z.of_nat (length obs) →
  ∃ w', after_runs pv fuel es obs w = Ret tt w' ∧
    _checkpoints_since_eval (hook w') =
      (_checkpoints_since_eval (hook w) + Z.of_nat (length obs)) mod (k + 1) ∧
    Z.of_nat (run_eval_calls (trace w')) =
      Z.of_nat (run_eval_calls (trace w))
      + (_checkpoints_since_eval (hook w) + Z.of_nat (length obs)) / (k + 1) ∧
    _latest_checkpoint (hook w') = default (_latest_checkpoint (hook w)) (last obs).
Proof.
  revert w. induction obs as [| o rest IH];
    intros w Hc He Hevery Hcount Hsteps HN Hrestore Hyield Hfuel Hnew.
  - exists w. simpl. unfold ret. rewrite Z.add_0_r.
    rewrite Z.mod_small, Z.div_small by lia. repeat split; lia.
  - assert (Hchanges : ∀ l, 0 ≤ changes l rest ≤ Z.of_nat (length rest)).
    { clear. induction rest as [| x rest IH]; intros l; simpl; [lia |].
      specialize (IH x). case_bool_decide; lia. }
    simpl in Hnew. specialize (Hchanges o).
    assert (Ho : o ≠ _latest_checkpoint (hook w)) by (case_bool_decide; [lia | done]).
    assert (Hrest : changes o rest = Z.of_nat (length rest)) by (case_bool_decide; lia).
    destruct (after_run_new_checkpoint pv fuel es w o k N)
      as (w1 & Hrun & Hc1 & He1 & Hevery1 & Hsteps1 & Hlatest1 & Hcount1 & Hcalls1);
      try assumption.
    rewrite <- Hlatest1 in Hrest.
    set (c := _checkpoints_since_eval (hook w)) in *.
    assert (Hc1' : 0 ≤ _checkpoints_since_eval (hook w1) ≤ k).
    { rewrite Hcount1. destruct (Z.ltb_spec k (c + 1)); lia. }
    destruct (IH w1 Hc1 He1 Hevery1 Hc1' Hsteps1 HN Hrestore Hyield Hfuel Hrest)
      as (w2 & Hrun2 & Hcount2 & Hcalls2 & Hlatest2).
    exists w2. simpl. unfold bind. rewrite Hrun. split; [exact Hrun2 |].
    rewrite Hcount2, Hcalls2, Hlatest2, Hcount1, Hcalls1, Hlatest1.
    replace (Z.of_nat (S (length rest))) with (Z.of_nat (length rest) + 1) by lia.
    destruct (Z.ltb_spec k (c + 1)) as [Hlt | Hge].
    + assert (c = k) as Hck by lia.
      replace (c + (Z.of_nat (length rest) + 1))
        with (0 + Z.of_nat (length rest) + 1 * (k + 1)) by lia.
      rewrite Z.div_add, Z.mod_add by lia.
      split; [reflexivity | split].
      * lia.
      * destruct rest as [| o' rest']; [reflexivity |].
        rewrite (last_cons_default rest' o' o (_latest_checkpoint (hook w))).
        reflexivity.
    + replace (c + (Z.of_nat (length rest) + 1))
        with (c + 1 + Z.of_nat (length rest)) by lia.
      split; [reflexivity |]. split; [lia |].
      destruct rest as [| o' rest']; [reflexivity |].
      rewrite (last_cons_default rest' o' o (_latest_checkpoint (hook w))).
      reflexivity.
Qed.

Lemma after_runs_cadence_witness :
  ∃ w', after_runs Py3 10 (unbounded_session 7)
          [Some "c1"; Some "c2"; Some "c3"; Some "c4"; Some "c5"]%string world0
        = Ret tt w' ∧
    _checkpoints_since_eval (hook w') =
      (_checkpoints_since_eval (hook world0) + Z.of_nat 5) mod (1 + 1) ∧
    Z.of_nat (run_eval_calls (trace w')) =
      Z.of_nat (run_eval_calls (trace world0))
      + (_checkpoints_since_eval (hook world0) + Z.of_nat 5) / (1 + 1) ∧
    _latest_checkpoint (hook w') =
      default (_latest_checkpoint (hook world0))
        (last [Some "c1"; Some "c2"; Some "c3"; Some "c4"; Some "c5"]%string).
Proof.
  apply (after_runs_cadence Py3 10 (unbounded_session 7) 1 3
           [Some "c1"; Some "c2"; Some "c3"; Some "c4"; Some "c5"]%string world0).
  - reflexivity.
  - reflexivity.
  - reflexivity.
  - simpl. lia.
  - reflexivity.
  - lia.
  - intros c. exists 7. reflexivity.
  - intros i. reflexivity.
  - simpl. lia.
  - reflexivity.
Defined.

(** ** The checkpoint guard under overlapping callbacks *)

Lemma thread_step_update_guard (pv : py_version) (o : oracle) (cb : callback)
    (p p' : pc) (w w' : world) :
  thread_step pv o cb p w = Some (p', w') →
  (updating p = true → _checkpoint_lock (hook w) = true) →
  (Nat.b2n (updating p') + Nat.b2n (_checkpoint_lock (hook w)) =
   Nat.b2n (updating p) + Nat.b2n (_checkpoint_lock (hook w')))%nat.
Proof.
  intros Hstep Hheld. destruct p; simpl in Hstep.
  - unfold acquire in Hstep. simpl in Hstep.
    destruct (_checkpoint_lock (hook w)) eqn:L; injection Hstep as <- <-;
      simpl; rewrite ?L; reflexivity.
  - destruct (o_latest o); injection Hstep as <- <-; reflexivity.
  - destruct (negb _); injection Hstep as <- <-; reflexivity.
  - injection Hstep as <- <-; reflexivity.
  - injection Hstep as <- <-; reflexivity.
  - injection Hstep as <- <-; reflexivity.
  - unfold release in Hstep. simpl in Hstep.
    pose proof (Hheld eq_refl) as L. rewrite L in Hstep.
    destruct pending; injection Hstep as <- <-; simpl; rewrite L; reflexivity.
  - unfold acquire in Hstep. simpl in Hstep.
    destruct cb, (_eval_lock (hook w)) eqn:L; try discriminate;
      injection Hstep as <- <-; reflexivity.
  - destruct (py_int_gt pv _ _) as [[|] | e]; injection Hstep as <- <-; reflexivity.
  - injection Hstep as <- <-; reflexivity.
  - pose proof (run_eval_frame (o_fuel o) (o_session o) w) as F.
    destruct (_run_eval (o_fuel o) (o_session o) w) as [[] w1 | e w1 |];
      injection Hstep as <- <-.
    + destruct F as (_ & Hs & _). destruct Hs as (_ & _ & _ & _ & _ & _ & ->).
      reflexivity.
    + destruct F as (_ & ->). reflexivity.
    + reflexivity.
  - unfold release in Hstep. simpl in Hstep.
    destruct (_eval_lock (hook w)); injection Hstep as <- <-; reflexivity.
  - discriminate.
Qed.

Lemma sched_step_update_invariant (pv : py_version) (p : pool) (pick : nat * oracle) :
  update_invariant p → update_invariant (sched_step pv p pick).
Proof.
  unfold update_invariant, sched_step. intros Hinv.
  destruct (threads p !! pick.1) as [t |] eqn:Hi; [| exact Hinv].
  destruct (thread_step pv pick.2 (cb_of t) (at_pc t) (shared p)) as [[p' w'] |] eqn:Hstep;
    [| exact Hinv].
  simpl.
  pose proof (count_insert in_update (threads p) pick.1 t
                {| cb_of := cb_of t; at_pc := p' |} Hi) as Hcount.
  assert (Hheld : updating (at_pc t) = true → _checkpoint_lock (hook (shared p)) = true).
  { intros Hh. pose proof (count_pos_lookup in_update _ _ _ Hi Hh) as Hpos.
    rewrite Hinv in Hpos.
    destruct (_checkpoint_lock (hook (shared p))); [done | simpl in Hpos; lia]. }
  pose proof (thread_step_update_guard _ _ _ _ _ _ _ Hstep Hheld) as Hg.
  change (in_update t) with (updating (at_pc t)) in Hcount.
  change (in_update {| cb_of := cb_of t; at_pc := p' |}) with (updating p') in Hcount.
  lia.
Qed.

Lemma run_schedule_update_invariant (pv : py_version) (s : list (nat * oracle)) :
  ∀ p : pool, update_invariant p → update_invariant (run_schedule pv s p).
Proof.
  unfold run_schedule. induction s as [| pick s IH]; intros p Hinv; simpl; [exact Hinv |].
  apply IH, sched_step_update_invariant, Hinv.
Qed.

Lemma spawn_update_invariant (cbs : list callback) (h : Hook) :
  _checkpoint_lock h = false → update_invariant (spawn cbs h).
Proof.
  intros Hfree. unfold update_invariant, spawn. simpl. rewrite Hfree.
  induction cbs as [| c cbs IH]; simpl; [reflexivity | exact IH].
Qed.

(** X9.  Whatever callbacks are in flight on a new hook and however they
    interleave, at most one thread is inside the critical section of
    [_update_latest_checkpoint], between taking and giving back the
    checkpoint guard: two threads that are both inside are the same
    thread.  So a thread that gives the guard back holds it, and the
    release never fails. *)
Theorem checkpoint_guard_serializes (pv : py_version) (s : list (nat * oracle))
    (cbs : list callback) (dir : string) (freq : pyval) (steps : option Z) :
  count in_update (threads (run_schedule pv s (spawn cbs (EvaluationRunHook dir freq steps))))
    = Nat.b2n (_checkpoint_lock (hook (shared
        (run_schedule pv s (spawn cbs (EvaluationRunHook dir freq steps)))))) ∧
  (∀ i j t t',
     threads (run_schedule pv s (spawn cbs (EvaluationRunHook dir freq steps))) !! i = Some t →
     threads (run_schedule pv s (spawn cbs (EvaluationRunHook dir freq steps))) !! j = Some t' →
     in_update t = true → in_update t' = true → i = j) ∧
  (∀ i t pending,
     threads (run_schedule pv s (spawn cbs (EvaluationRunHook dir freq steps))) !! i = Some t →
     at_pc t = Upd_release pending →
     release CheckpointLock
       (shared (run_schedule pv s (spawn cbs (EvaluationRunHook dir freq steps))))
     ≠ Exc RuntimeError
         (shared (run_schedule pv s (spawn cbs (EvaluationRunHook dir freq steps))))).
Proof.
  set (p := run_schedule pv s (spawn cbs (EvaluationRunHook dir freq steps))).
  assert (Hinv : update_invariant p).
  { apply run_schedule_update_invariant, spawn_update_invariant. reflexivity. }
  split; [exact Hinv |]. split.
  - intros i j t t' Hi Hj Ht Ht'.
    apply (count_le_1_unique in_update (threads p) i j t t'); auto.
    unfold update_invariant in Hinv. rewrite Hinv.
    destruct (_checkpoint_lock (hook (shared p))); simpl; lia.
  - intros i t pending Hi Hpc.
    assert (Hin : in_update t = true) by (unfold in_update; rewrite Hpc; reflexivity).
    pose proof (count_pos_lookup in_update _ _ _ Hi Hin) as Hpos.
    unfold update_invariant in Hinv. rewrite Hinv in Hpos.
    unfold release. simpl.
    destruct (_checkpoint_lock (hook (shared p))); [discriminate | simpl in Hpos; lia].
Qed.

(** ** Progress of overlapping callbacks *)

Lemma count_pos_exists {A} (f : A → bool) (l : list A) :
  (1 ≤ count f l)%nat → ∃ i x, l !! i = Some x ∧ f x = true.
Proof.
  induction l as [| z l IH]; simpl; [lia |].
  destruct (f z) eqn:Hz; intros Hpos.
  - exists 0%nat, z. split; [reflexivity | exact Hz].
  - destruct IH as (i & x & Hi & Hx); [lia |]. exists (S i), x. split; assumption.
Qed.

(** A thread that has not finished and does not wait at a held evaluation
    guard can move on. *)
Lemma thread_can_move (pv : py_version) (cb : callback) (p : pc) (w : world) :
  is_Finished p = false →
  (cb = End → p = At_eval_acquire → _eval_lock (hook w) = false) →
  ∃ p' w', thread_step pv failing_oracle cb p w = Some (p', w') ∧ p' ≠ p.
Proof.
  intros Hfin Hwait. destruct p; simpl in *; try discriminate.
  - unfold acquire. simpl. destruct (_checkpoint_lock (hook w)); eauto.
  - eauto.
  - destruct (negb _); eauto.
  - eauto.
  - eauto.
  - eauto.
  - unfold release. simpl.
    destruct (_checkpoint_lock (hook w)); [destruct pending |]; eauto.
  - unfold acquire. simpl. destruct cb.
    + destruct (_eval_lock (hook w)); eauto.
    + rewrite Hwait by reflexivity. eauto.
  - destruct (py_int_gt pv _ _) as [[|] | e]; eauto.
  - eauto.
  - run_py. eauto.
  - unfold release. simpl. destruct (_eval_lock (hook w)); eauto.
Qed.

(** X10.  The two guards never deadlock: in every state that overlapping
    callbacks on a new hook can reach, as long as some callback has not
    finished, some callback can take a step that moves it on (an [end]
    that waits for the evaluation guard waits for a thread that holds it
    and can go on to release it). *)
Theorem callbacks_never_deadlock (pv : py_version) (s : list (nat * oracle))
    (cbs : list callback) (dir : string) (freq : pyval) (steps : option Z)
    (i : nat) (t : thread) :
  threads (run_schedule pv s (spawn cbs (EvaluationRunHook dir freq steps))) !! i = Some t →
  is_Finished (at_pc t) = false →
  ∃ j o t' p' w',
    threads (run_schedule pv s (spawn cbs (EvaluationRunHook dir freq steps))) !! j = Some t' ∧
    thread_step pv o (cb_of t') (at_pc t')
      (shared (run_schedule pv s (spawn cbs (EvaluationRunHook dir freq steps))))
    = Some (p', w') ∧
    p' ≠ at_pc t'.
Proof.
  set (p := run_schedule pv s (spawn cbs (EvaluationRunHook dir freq steps))).
  intros Hi Hfin.
  assert (Hinv : guard_invariant p).
  { apply run_schedule_invariant, spawn_invariant. reflexivity. }
  destruct (_eval_lock (hook (shared p))) eqn:L.
  - (* the guard is held: its holder can move *)
    unfold guard_invariant in Hinv. rewrite L in Hinv.
    destruct (count_pos_exists holds_guard (threads p)) as (j & t' & Hj & Hheld);
      [rewrite Hinv; simpl; lia |].
    destruct (thread_can_move pv (cb_of t') (at_pc t') (shared p)) as (p' & w' & Hstep & Hne).
    + unfold holds_guard in Hheld. destruct (at_pc t'); try discriminate; reflexivity.
    + intros _ Hpc. unfold holds_guard in Hheld. rewrite Hpc in Hheld. discriminate.
    + exists j, failing_oracle, t', p', w'. auto.
  - destruct (thread_can_move pv (cb_of t) (at_pc t) (shared p)) as (p' & w' & Hstep & Hne).
    + exact Hfin.
    + intros _ _. exact L.
    + exists i, failing_oracle, t, p', w'. auto.
Qed.

Lemma callbacks_never_deadlock_witness :
  ∃ j o t' p' w',
    threads (run_schedule Py3 sample_schedule
               (spawn [AfterRun; AfterRun; End]
                  (EvaluationRunHook "job" (PyInt 0) (Some 3)))) !! j = Some t' ∧
    thread_step Py3 o (cb_of t') (at_pc t')
      (shared (run_schedule Py3 sample_schedule
                 (spawn [AfterRun; AfterRun; End]
                    (EvaluationRunHook "job" (PyInt 0) (Some 3)))))
    = Some (p', w') ∧
    p' ≠ at_pc t'.
Proof.
  apply (callbacks_never_deadlock Py3 sample_schedule [AfterRun; AfterRun; End]
           "job" (PyInt 0) (Some 3) 2 {| cb_of := End; at_pc := At_eval_acquire |}).
  - vm_compute. reflexivity.
  - reflexivity.
Defined.

(** ** The counter between the two guards *)

Lemma run_schedule_cons (pv : py_version) (x : nat * oracle) (s : list (nat * oracle))
    (p : pool) :
  run_schedule pv (x :: s) p = run_schedule pv s (sched_step pv p x).
Proof. reflexivity. Qed.

(** The interleaving of [race_schedule], step by step. *)
Lemma race_schedule_runs (pv : py_version) (k : Z) (o0 o1 o2 : option ckpt) :
  o1 ≠ o0 → o2 ≠ o1 →
  ∃ p, run_schedule pv (race_schedule o1 o2) (race_pool k o0) = p ∧
    at_pc <$> threads p = [Eval_run; Upd_set_latest o2] ∧
    _checkpoints_since_eval (hook (shared p)) = k + 2.
Proof.
  intros H1 H2.
  assert (E1 : bool_decide (o1 = o0) = false) by (apply bool_decide_eq_false_2; exact H1).
  assert (E2 : bool_decide (o2 = o1) = false) by (apply bool_decide_eq_false_2; exact H2).
  assert (E3 : (k <? k + 1) = true) by (apply Z.ltb_lt; lia).
  eexists. split.
  - unfold race_schedule, race_pool, spawn. cbn [repeat app map].
    do 15 sched_next run_schedule_cons E1 E2 E3. reflexivity.
  - simpl. split; [reflexivity | lia].
Qed.

(** X11.  The counter is written under two different guards, and the reset
    of an evaluating callback can be lost: when a second [after_run] reads
    the counter for its increment before the first resets it and stores
    after, the counter stands at [k + 2] while the evaluation starts; the
    same two callbacks one after the other leave it at 0 or 1. *)
Theorem counter_reset_can_be_lost (pv : py_version) (k : Z) (o0 o1 o2 : option ckpt) :
  o1 ≠ o0 → o2 ≠ o1 →
  at_pc <$> threads (run_schedule pv (race_schedule o1 o2) (race_pool k o0))
    = [Eval_run; Upd_set_latest o2] ∧
  _checkpoints_since_eval
    (hook (shared (run_schedule pv (race_schedule o1 o2) (race_pool k o0)))) = k + 2 ∧
  ∃ w', after_runs pv 10 (unbounded_session 7) [o1; o2] (shared (race_pool k o0))
        = Ret tt w' ∧
    _checkpoints_since_eval (hook w') = (if k <? 1 then 0 else 1).
Proof.
  intros H1 H2.
  destruct (race_schedule_runs pv k o0 o1 o2 H1 H2) as (p & -> & Hpc & Hcount).
  split; [exact Hpc |]. split; [exact Hcount |].
  destruct (after_run_new_checkpoint pv 10 (unbounded_session 7)
              (shared (race_pool k o0)) o1 k 3)
    as (w1 & Hrun1 & Hc1 & He1 & Hevery1 & Hsteps1 & Hlatest1 & Hcount1 & _);
    try reflexivity; try (simpl; lia).
  { intros c. exists 7. reflexivity. }
  { exact H1. }
  destruct (after_run_new_checkpoint pv 10 (unbounded_session 7) w1 o2 k 3)
    as (w2 & Hrun2 & _ & _ & _ & _ & _ & Hcount2 & _);
    try assumption; try reflexivity; try (simpl; lia).
  { intros c. exists 7. reflexivity. }
  { rewrite Hlatest1. exact H2. }
  exists w2. split.
  { cbn [after_runs]. unfold bind, ret. rewrite Hrun1, Hrun2. reflexivity. }
  assert (E3 : (k <? k + 1) = true) by (apply Z.ltb_lt; lia).
  rewrite Hcount2, Hcount1. simpl. rewrite E3. simpl. reflexivity.
Qed.

Lemma counter_reset_can_be_lost_witness :
  at_pc <$> threads (run_schedule Py3 (race_schedule (Some "c1"%string) (Some "c2"%string))
                       (race_pool 1 (Some "c0"%string)))
    = [Eval_run; Upd_set_latest (Some "c2"%string)] ∧
  _checkpoints_since_eval
    (hook (shared (run_schedule Py3 (race_schedule (Some "c1"%string) (Some "c2"%string))
                     (race_pool 1 (Some "c0"%string))))) = 1 + 2 ∧
  ∃ w', after_runs Py3 10 (unbounded_session 7) [Some "c1"%string; Some "c2"%string]
          (shared (race_pool 1 (Some "c0"%string))) = Ret tt w' ∧
    _checkpoints_since_eval (hook w') = (if 1 <? 1 then 0 else 1).
Proof.
  apply (counter_reset_can_be_lost Py3 1 (Some "c0"%string) (Some "c1"%string)
           (Some "c2"%string)); discriminate.
Defined.

(** ** More on the dispatcher *)

(** X12.  For the role name ["ps"], [dispatch] builds the cluster spec,
    starts the server and then blocks in [server.join()]: it never calls
    [run], whatever the other arguments are; an error of the cluster spec
    or of the server is what it raises. *)
Theorem dispatch_parameter_server (x : externals) (text : string)
    (config cluster idx : json) (args : run_args) :
  text ≠ EmptyString →
  json_loads x text = Returns config →
  py_get config "cluster" JNull = Returns cluster →
  task_field config "type" = Returns (JStr "ps") →
  task_field config "index" = Returns idx →
  is_None idx = false →
  dispatch x (Some text) args =
    match ClusterSpec x cluster with
    | Raises e => {| calls := [Call_ClusterSpec cluster]; final := Failed e |}
    | Returns _ =>
        match Server x cluster (JStr "ps") idx with
        | Raises e =>
            {| calls := [Call_ClusterSpec cluster; Call_Server cluster (JStr "ps") idx];
               final := Failed e |}
        | Returns _ =>
            {| calls := [Call_ClusterSpec cluster; Call_Server cluster (JStr "ps") idx;
                         Call_join];
               final := Serving |}
        end
    end ∧
  ∀ s, final (dispatch x (Some text) args) ≠ Ran s.
Proof.
  intros Htext Hloads Hcluster Hjob Hidx Hi.
  rewrite (dispatch_with_task x text config cluster (JStr "ps") idx args)
    by (assumption || reflexivity).
  destruct (ClusterSpec x cluster); [| done].
  destruct (Server x cluster (JStr "ps") idx); done.
Qed.

Lemma dispatch_parameter_server_witness :
  dispatch (sample_externals "p" (config_of_task "ps" 0)) (Some "p"%string) sample_args =
    match ClusterSpec (sample_externals "p" (config_of_task "ps" 0)) sample_cluster with
    | Raises e => {| calls := [Call_ClusterSpec sample_cluster]; final := Failed e |}
    | Returns _ =>
        match Server (sample_externals "p" (config_of_task "ps" 0)) sample_cluster
                (JStr "ps") (JInt 0) with
        | Raises e =>
            {| calls := [Call_ClusterSpec sample_cluster;
                         Call_Server sample_cluster (JStr "ps") (JInt 0)];
               final := Failed e |}
        | Returns _ =>
            {| calls := [Call_ClusterSpec sample_cluster;
                         Call_Server sample_cluster (JStr "ps") (JInt 0); Call_join];
               final := Serving |}
        end
    end ∧
  ∀ s, final (dispatch (sample_externals "p" (config_of_task "ps" 0)) (Some "p"%string)
                sample_args) ≠ Ran s.
Proof.
  apply (dispatch_parameter_server (sample_externals "p" (config_of_task "ps" 0)) "p"
           (config_of_task "ps" 0) sample_cluster (JInt 0) sample_args);
    first [reflexivity | discriminate].
Defined.

(** X13.  A [TF_CONFIG] that is set but cannot be read stops [dispatch]
    before any server is started and before any training: an error of
    [json.loads] is raised as it is, and a description that is no
    dictionary, or whose ["task"] is present but no dictionary (a [null]
    task among them), raises [AttributeError]; it does not fall back to the
    local run. *)
Theorem dispatch_unreadable_description (x : externals) (text : string)
    (args : run_args) :
  text ≠ EmptyString →
  match json_loads x text with
  | Raises e => dispatch x (Some text) args = {| calls := []; final := Failed e |}
  | Returns config =>
      well_shaped config = false →
      dispatch x (Some text) args = {| calls := []; final := Failed AttributeError |}
  end.
Proof.
  intros Htext. unfold dispatch. rewrite bool_decide_eq_false_2 by exact Htext.
  destruct (json_loads x text) as [config | e]; [| reflexivity].
  intros Hshape. unfold task_field.
  destruct config as [| b | n | lit | str | l | m]; simpl in *; try reflexivity.
  destruct (m !! "task") as [[| b | n | lit | str | l | t] |]; simpl in *;
    try reflexivity; discriminate.
Qed.

Lemma dispatch_unreadable_description_witness :
  match json_loads (sample_externals "n" config_null_task) "n" with
  | Raises e =>
      dispatch (sample_externals "n" config_null_task) (Some "n"%string) sample_args
        = {| calls := []; final := Failed e |}
  | Returns config =>
      well_shaped config = false →
      dispatch (sample_externals "n" config_null_task) (Some "n"%string) sample_args
        = {| calls := []; final := Failed AttributeError |}
  end.
Proof.
  apply (dispatch_unreadable_description (sample_externals "n" config_null_task) "n"
           sample_args).
  discriminate.
Defined.

(** A [null] task is not a missing task. *)
Example dispatch_null_task :
  dispatch (sample_externals "n" config_null_task) (Some "n"%string) sample_args
    = {| calls := []; final := Failed AttributeError |}.
Proof. vm_compute. reflexivity. Qed.

Lemma eq_str_true (v : json) (s : string) : eq_str v s = true → v = JStr s.
Proof.
  destruct v; simpl; try discriminate. intros H. apply bool_decide_eq_true in H.
  congruence.
Qed.

(** X14.  Whenever [dispatch] gets as far as training, it is in one of two
    ways: locally, with no server started, the empty target and
    [is_chief = True]; or after the cluster spec and the server have been
    built, on the target of that server, for the role ["master"] with
    [is_chief = True] or for the role ["worker"] with [is_chief = False]. *)
Theorem dispatch_training_roles (x : externals) (tf_config : option string)
    (args : run_args) (s : training_session) :
  final (dispatch x tf_config args) = Ran s →
  (calls (dispatch x tf_config args) = [] ∧ s = run EmptyString true args) ∨
  ∃ cluster job idx target,
    calls (dispatch x tf_config args) =
      [Call_ClusterSpec cluster; Call_Server cluster job idx] ∧
    ClusterSpec x cluster = Returns tt ∧
    Server x cluster job idx = Returns target ∧
    ((job = JStr "master" ∧ s = run target true args) ∨
     (job = JStr "worker" ∧ s = run target false args)).
Proof.
  unfold dispatch.
  destruct tf_config as [text |]; [| intros [= <-]; left; done].
  case_bool_decide; [intros [= <-]; left; done |].
  destruct (json_loads x text) as [config | e]; [| discriminate].
  destruct (py_get config "cluster" JNull) as [cluster | e]; [| discriminate].
  destruct (task_field config "type") as [job | e]; [| discriminate].
  destruct (task_field config "index") as [idx | e]; [| discriminate].
  destruct (is_None job || is_None idx); [intros [= <-]; left; done |].
  destruct (ClusterSpec x cluster) as [[] | e] eqn:Hspec; [| discriminate].
  destruct (Server x cluster job idx) as [target | e] eqn:Hserver; [| discriminate].
  destruct (eq_str job "ps") eqn:Hps; [discriminate |].
  destruct (eq_str job "master") eqn:Hmaster; simpl.
  - intros [= <-]. right. exists cluster, job, idx, target.
    apply eq_str_true in Hmaster.
    split; [reflexivity |]. split; [exact Hspec |]. split; [exact Hserver |].
    left. split; [exact Hmaster | reflexivity].
  - destruct (eq_str job "worker") eqn:Hworker; [| discriminate].
    intros [= <-]. right. exists cluster, job, idx, target.
    apply eq_str_true in Hworker.
    split; [reflexivity |]. split; [exact Hspec |]. split; [exact Hserver |].
    right. split; [exact Hworker | reflexivity].
Qed.

Lemma dispatch_training_roles_witness :
  (calls (dispatch (sample_externals "w" (config_of_task "worker" 2)) (Some "w"%string)
            sample_args) = [] ∧
   run "grpc://localhost:2222" false sample_args = run EmptyString true sample_args) ∨
  ∃ cluster job idx target,
    calls (dispatch (sample_externals "w" (config_of_task "worker" 2)) (Some "w"%string)
             sample_args) =
      [Call_ClusterSpec cluster; Call_Server cluster job idx] ∧
    ClusterSpec (sample_externals "w" (config_of_task "worker" 2)) cluster = Returns tt ∧
    Server (sample_externals "w" (config_of_task "worker" 2)) cluster job idx
      = Returns target ∧
    ((job = JStr "master" ∧
      run "grpc://localhost:2222" false sample_args = run target true sample_args) ∨
     (job = JStr "worker" ∧
      run "grpc://localhost:2222" false sample_args = run target false sample_args)).
Proof.
  apply (dispatch_training_roles (sample_externals "w" (config_of_task "worker" 2))
           (Some "w"%string) sample_args (run "grpc://localhost:2222" false sample_args)).
  vm_compute. reflexivity.
Defined.

(** ** The file writer *)

Lemma update_keeps_file_writer (latest : outcome (option ckpt)) (w : world) :
  match _update_latest_checkpoint latest w with
  | Ret _ w1 | Exc _ w1 => _file_writer (hook w1) = _file_writer (hook w)
  | Timeout => False
  end.
Proof.
  destruct (_checkpoint_lock (hook w)) eqn:L.
  - rewrite update_held by exact L. reflexivity.
  - destruct latest as [l | e].
    + destruct (update_free l w L) as (w1 & -> & _ & _ & _ & Hs & _). apply Hs.
    + destruct (update_raises e w L) as (w1 & -> & -> & _). reflexivity.
Qed.

(** X15.  The callbacks keep the file writer flushed and only ever append
    to what is on disk: when nothing is pending before [after_run] or
    [end], nothing is pending after it, on a return and on an exception
    alike, and the flushed records are those from before followed by at
    most one new record. *)
Theorem callbacks_keep_writer_flushed (pv : py_version)
    (latest : outcome (option ckpt)) (fuel : nat) (es : eval_session) (w : world) :
  fw_pending (_file_writer (hook w)) = [] →
  match after_run pv latest fuel es w with
  | Ret _ w' | Exc _ w' =>
      fw_pending (_file_writer (hook w')) = [] ∧
      ∃ new, fw_flushed (_file_writer (hook w')) = fw_flushed (_file_writer (hook w)) ++ new ∧
        (length new ≤ 1)%nat
  | Timeout => True
  end ∧
  match end_ latest fuel es w with
  | Ret _ w' | Exc _ w' =>
      fw_pending (_file_writer (hook w')) = [] ∧
      ∃ new, fw_flushed (_file_writer (hook w')) = fw_flushed (_file_writer (hook w)) ++ new ∧
        (length new ≤ 1)%nat
  | Timeout => True
  end.
Proof.
  intros Hpending.
  pose proof (update_keeps_file_writer latest w) as U.
  assert (Hnone : fw_pending (_file_writer (hook w)) = [] ∧
            ∃ new, fw_flushed (_file_writer (hook w)) = fw_flushed (_file_writer (hook w)) ++ new ∧
              (length new ≤ 1)%nat).
  { split; [exact Hpending |]. exists []. rewrite app_nil_r. simpl. split; [done | lia]. }
  split.
  - unfold after_run, bind.
    destruct (_update_latest_checkpoint latest w) as [[] w1 | e w1 |]; [| | done].
    2: { rewrite U. exact Hnone. }
    rewrite <- U in *. clear U. destruct w1 as [h tr]. simpl in *. run_cb.
    destruct (_eval_lock h); simpl; [exact Hnone |].
    destruct (py_int_gt pv _ _) as [[|] | e]; simpl; try exact Hnone.
    frame_run_eval run_eval_frame.
    + destruct F as (_ & Hs & s & step & _ & Hfw).
      destruct Hs as (_ & _ & _ & _ & _ & -> & _). simpl.
      rewrite Hfw. simpl. rewrite Hpending. simpl.
      split; [reflexivity |]. exists [(s, step)]. split; [reflexivity | simpl; lia].
    + destruct F as (_ & ->). simpl. exact Hnone.
    + exact I.
  - unfold end_, bind.
    destruct (_update_latest_checkpoint latest w) as [[] w1 | e w1 |]; [| | done].
    2: { rewrite U. exact Hnone. }
    rewrite <- U in *. clear U. destruct w1 as [h tr]. simpl in *. run_cb.
    destruct (_eval_lock h); simpl; [exact I |].
    frame_run_eval run_eval_frame.
    + destruct F as (_ & Hs & s & step & _ & Hfw).
      destruct Hs as (_ & _ & _ & _ & _ & -> & _). simpl.
      rewrite Hfw. simpl. rewrite Hpending. simpl.
      split; [reflexivity |]. exists [(s, step)]. split; [reflexivity | simpl; lia].
    + destruct F as (_ & ->). simpl. exact Hnone.
    + exact I.
Qed.

Lemma callbacks_keep_writer_flushed_witness :
  match after_run Py3 (Returns (Some "ckpt-1"%string)) 10 (unbounded_session 7) world0 with
  | Ret _ w' | Exc _ w' =>
      fw_pending (_file_writer (hook w')) = [] ∧
      ∃ new, fw_flushed (_file_writer (hook w')) =
               fw_flushed (_file_writer (hook world0)) ++ new ∧
        (length new ≤ 1)%nat
  | Timeout => True
  end ∧
  match end_ (Returns (Some "ckpt-1"%string)) 10 (unbounded_session 7) world0 with
  | Ret _ w' | Exc _ w' =>
      fw_pending (_file_writer (hook w')) = [] ∧
      ∃ new, fw_flushed (_file_writer (hook w')) =
               fw_flushed (_file_writer (hook world0)) ++ new ∧
        (length new ≤ 1)%nat
  | Timeout => True
  end.
Proof.
  apply (callbacks_keep_writer_flushed Py3 (Returns (Some "ckpt-1"%string)) 10
           (unbounded_session 7) world0).
  reflexivity.
Defined.

(** ** New checkpoints during an evaluation *)

(** One [after_run] while another callback holds the evaluation guard. *)
Lemma after_run_guard_held (pv : py_version) (fuel : nat) (es : eval_session)
    (w : world) (o : option ckpt) :
  _eval_lock (hook w) = true → _checkpoint_lock (hook w) = false →
  ∃ w', after_run pv (Returns o) fuel es w = Ret tt w' ∧
    _eval_lock (hook w') = true ∧ _checkpoint_lock (hook w') = false ∧
    _checkpoints_since_eval (hook w') =
      _checkpoints_since_eval (hook w)
      + (if bool_decide (o = _latest_checkpoint (hook w)) then 0 else 1) ∧
    _latest_checkpoint (hook w') = o ∧
    _file_writer (hook w') = _file_writer (hook w) ∧
    run_eval_calls (trace w') = run_eval_calls (trace w).
Proof.
  intros He Hc.
  destruct (update_free o w Hc) as (w1 & Hrun & Hcount & Hlatest & Hlock & Hs & Htr).
  destruct Hs as (_ & _ & _ & He1 & Hfw).
  unfold after_run, bind. rewrite Hrun. unfold acquire. simpl.
  rewrite He1, He. eexists. split; [reflexivity |]. simpl.
  rewrite He1, He, Hlock, Hcount, Hlatest, Hfw, Htr.
  rewrite !run_eval_calls_app. cbn. repeat split; try done; lia.
Qed.

(** X16.  Checkpoints that appear while an evaluation is under way are not
    missed: with the evaluation guard held by another callback, every
    [after_run] returns at once, without a pass, and still counts a new
    checkpoint, so that after [n] new checkpoints the counter has grown by
    [n], beyond [eval_frequency] if need be, and the newest one is
    stored. *)
Theorem after_runs_during_evaluation (pv : py_version) (fuel : nat)
    (es : eval_session) (obs : list (option ckpt)) (w : world) :
  _eval_lock (hook w) = true → _checkpoint_lock (hook w) = false →
  changes (_latest_checkpoint (hook w)) obs = Z.of_nat (length obs) →
  ∃ w', after_runs pv fuel es obs w = Ret tt w' ∧
    _checkpoints_since_eval (hook w') =
      _checkpoints_since_eval (hook w) + Z.of_nat (length obs) ∧
    _latest_checkpoint (hook w') = default (_latest_checkpoint (hook w)) (last obs) ∧
    _eval_lock (hook w') = true ∧
    _file_writer (hook w') = _file_writer (hook w) ∧
    run_eval_calls (trace w') = run_eval_calls (trace w).
Proof.
  revert w. induction obs as [| o rest IH]; intros w He Hc Hnew.
  - exists w. simpl. unfold ret. repeat split; try done. lia.
  - assert (Hchanges : ∀ l, 0 ≤ changes l rest ≤ Z.of_nat (length rest)).
    { clear. induction rest as [| x rest IH]; intros l; simpl; [lia |].
      specialize (IH x). case_bool_decide; lia. }
    simpl in Hnew. specialize (Hchanges o).
    assert (Ho : bool_decide (o = _latest_checkpoint (hook w)) = false)
      by (case_bool_decide; [lia | done]).
    assert (Hrest : changes o rest = Z.of_nat (length rest))
      by (rewrite Ho in Hnew; lia).
    destruct (after_run_guard_held pv fuel es w o He Hc)
      as (w1 & Hrun & He1 & Hc1 & Hcount1 & Hlatest1 & Hfw1 & Hcalls1).
    rewrite <- Hlatest1 in Hrest.
    destruct (IH w1 He1 Hc1 Hrest) as (w2 & Hrun2 & Hcount2 & Hlatest2 & He2 & Hfw2 & Hcalls2).
    exists w2. simpl. unfold bind. rewrite Hrun. split; [exact Hrun2 |].
    rewrite Hcount2, Hcount1, Ho, Hlatest2, Hlatest1, Hfw2, Hfw1, Hcalls2, Hcalls1.
    split; [lia |]. split; [| done].
    destruct rest as [| o' rest']; [reflexivity |].
    rewrite (last_cons_default rest' o' o (_latest_checkpoint (hook w))). reflexivity.
Qed.

Lemma after_runs_during_evaluation_witness :
  ∃ w', after_runs Py3 10 (unbounded_session 7)
          [Some "c1"; Some "c2"; Some "c3"]%string world_evaluating = Ret tt w' ∧
    _checkpoints_since_eval (hook w') =
      _checkpoints_since_eval (hook world_evaluating) + Z.of_nat 3 ∧
    _latest_checkpoint (hook w') =
      default (_latest_checkpoint (hook world_evaluating))
        (last [Some "c1"; Some "c2"; Some "c3"]%string) ∧
    _eval_lock (hook w') = true ∧
    _file_writer (hook w') = _file_writer (hook world_evaluating) ∧
    run_eval_calls (trace w') = run_eval_calls (trace world_evaluating).
Proof.
  apply (after_runs_during_evaluation Py3 10 (unbounded_session 7)
           [Some "c1"; Some "c2"; Some "c3"]%string world_evaluating); reflexivity.
Defined.
